(** * expo-whisper: the native bridge between the host and the whisper engine

  A shallow embedding of the two Android JNI bindings

  - [android/src/main/cpp/whisper-jni.cpp]  (the JSON binding:
    [initContext], [freeContext], [fullTranscribe]; results are
    returned as a JSON string), and
  - [android/src/main/jni/whisper_jni.cpp]  (the structured binding:
    [nativeInitContext], [nativeFreeContext], [nativeTranscribe],
    [nativeDetectLanguageWithState],
    [nativeStartChunkedRealtimeTranscribeWithState]; results are
    returned as Java [HashMap]/[ArrayList] objects),

  over an explicit model of the engine they drive.  The engine
  ([whisper.h]) is an external collaborator: it appears as a type class
  of oracles, and every statement below is quantified over it.  Engine
  handles are the [jlong] values that cross the bridge; the model keeps
  the set of handles that are currently allocated, and an engine routine
  that is handed a handle outside that set has undefined behaviour,
  which the model renders as the outcome [Crash]. *)

From Stdlib Require Import ZArith QArith List Lia Bool.
From Stdlib Require Import Floats.SpecFloat.
From Stdlib Require Import Strings.Byte.
From Stdlib Require Import DecimalString.
From stdpp Require Import gmap strings list.

#[local] Set Warnings "-register-all".
#[local] Open Scope Z_scope.

(** ** Single-precision floats

  [float] is IEEE binary32: 24 bits of precision, exponents below 128.
  The operations are those of the standard library's executable
  specification of IEEE arithmetic, instantiated at that format. *)

Module Float32.

Definition prec : Z := 24.
Definition emax : Z := 128.

Definition float : Type := spec_float.

(** [(float) n] for an integer [n]: round to nearest even. *)
Definition of_int (n : Z) : float := binary_normalize prec emax n 0 false.

(** The literal [32768.0f], that is 2^23 * 2^-8. *)
Definition c32768 : float := S754_finite false 8388608 (-8).

Definition div (x y : float) : float := SFdiv prec emax x y.

(** The real number a finite float denotes; infinities and NaN denote
    none. *)
Definition to_Q (f : float) : option Q :=
  match f with
  | S754_zero _ => Some 0%Q
  | S754_finite s m e =>
      Some (inject_Z (if s then Z.neg m else Z.pos m) * 2 ^ e)%Q
  | S754_infinity _ | S754_nan => None
  end.

(** A float denotes the rational [q], and [q] is between -1 and 1. *)
Definition denotes (f : float) (q : Q) : Prop :=
  exists v, to_Q f = Some v /\ (v == q)%Q.

Definition unit_range (f : float) : Prop :=
  exists v, to_Q f = Some v /\ (-1 <= v)%Q /\ (v <= 1)%Q.

End Float32.

(** ** The 16-bit PCM payload of a WAV buffer *)

Module Wav.

(** A [jbyte] array as the bytes it holds in memory. *)
Definition byte_val (b : byte) : Z := Z.of_N (Byte.to_N b).

(** The two's-complement reading of a 16-bit pattern. *)
Definition signed16 (u : Z) : Z := if u <? 32768 then u else u - 65536.

(** The 16-bit integer whose low byte is [lo] and whose high byte is
    [hi], both given as numbers below 256. *)
Definition int16_of (lo hi : Z) : Z :=
  signed16 (Z.lor lo (Z.shiftl hi 8)).

(** An [int16_t] read from two consecutive bytes; every Android ABI is
    little-endian, so the byte at the lower address is the low one. *)
Definition int16_le (lo hi : byte) : Z :=
  int16_of (byte_val lo) (byte_val hi).

(** The same integer by arithmetic: the unsigned value, less 65536 when
    the sign bit (the top bit of the high byte) is set. *)
Definition int16_value (lo hi : Z) : Z :=
  lo + 256 * hi - (if 128 <=? hi then 65536 else 0).

(** [(float)v / 32768.0f] *)
Definition normalize (v : Z) : Float32.float :=
  Float32.div (Float32.of_int v) Float32.c32768.

Definition header_len : Z := 44.

(** [len]: [GetArrayLength], a [jsize]. *)
Definition len (bytes : list byte) : Z := Z.of_nat (length bytes).

(** [pcm16[i]] where [pcm16 = (const int16_t * )(bytes + 44)]. *)
Definition pcm16 (bytes : list byte) (i : nat) : Z :=
  int16_le (nth (44 + 2 * i) bytes "000"%byte)
           (nth (44 + 2 * i + 1) bytes "000"%byte).

(** [int pcmLen = (len - 44) / 2;]  C division truncates toward zero. *)
Definition pcmLen (bytes : list byte) : Z := Z.quot (len bytes - header_len) 2.

(** [samples[i] = (float)pcm16[i] / 32768.0f;] *)
Definition sample (bytes : list byte) (i : nat) : Float32.float :=
  normalize (pcm16 bytes i).

(** The loop filling [std::vector<float> samples(pcmLen)]. *)
Definition samples (bytes : list byte) : list Float32.float :=
  map (sample bytes) (seq 0 (Z.to_nat (pcmLen bytes))).

(** The check behind the exactness of the division: the 16-bit integer
    with bytes [lo] and [hi] is the one arithmetic gives, and the float
    obtained from it denotes that integer over 32768 and lies between -1
    and 1. *)
Definition exact_at (lo hi : Z) : bool :=
  let v := int16_of lo hi in
  (v =? int16_value lo hi)
  && match Float32.to_Q (normalize v) with
     | Some q => Qeq_bool q (v # 32768) && Qle_bool (-1) q && Qle_bool q 1
     | None => false
     end.

(** The numbers a byte can hold. *)
Definition byte_range : list Z := map Z.of_nat (seq 0 256).

End Wav.


(** ** Values that cross the bridge *)

(** The Java objects the structured binding builds: [String], [Long],
    [Double], [ArrayList] and [HashMap<String, Object>]. *)
Inductive jvalue : Type :=
| JString (s : string)
| JLong (z : Z)
| JDouble (d : Float32.float)
| JList (l : list jvalue)
| JMap (m : gmap string jvalue).

(** A [jobject] result: [None] is [nullptr]. *)
Definition jobject : Type := option jvalue.

(** The double quote character, and a string between two of them. *)
Definition dq : string := String (Ascii.ascii_of_nat 34) EmptyString.
Definition quoted (s : string) : string := dq +:+ s +:+ dq.

(** [json << n] for an [int64_t]: decimal digits, with a minus sign for
    a negative number. *)
Definition show_int (n : Z) : string := NilZero.string_of_int (Z.to_int n).

(** ** The engine interface, [whisper.h]

    The header is not part of the sources.  The records below have the
    fields the bindings assign, and the class has the routines the
    bindings call, each with the arguments it is called with. *)

Inductive whisper_sampling_strategy : Type := WHISPER_SAMPLING_GREEDY.

Record whisper_context_params : Type := ContextParams {
  use_gpu : bool;
  flash_attn : bool
}.

(** What [params.language] holds: the structured binding stores the
    caller's tag there, the JSON binding the value of
    [whisper_lang_id]. *)
Inductive language_field : Type :=
| LangTag (tag : string)
| LangId (id : Z).

Record whisper_full_params : Type := FullParams {
  print_progress : bool;
  print_realtime : bool;
  print_timestamps : bool;
  print_special : bool;
  translate : bool;
  n_threads : Z;
  single_segment : bool;
  no_context : bool;
  audio_ctx : Z;
  token_timestamps : bool;
  max_tokens : Z;
  suppress_blank : bool;
  suppress_nst : bool;
  language : language_field
}.

Definition set_print_progress (v : bool) (p : whisper_full_params) :=
  FullParams v (print_realtime p) (print_timestamps p) (print_special p)
    (translate p) (n_threads p) (single_segment p) (no_context p)
    (audio_ctx p) (token_timestamps p) (max_tokens p) (suppress_blank p)
    (suppress_nst p) (language p).
Definition set_print_realtime (v : bool) (p : whisper_full_params) :=
  FullParams (print_progress p) v (print_timestamps p) (print_special p)
    (translate p) (n_threads p) (single_segment p) (no_context p)
    (audio_ctx p) (token_timestamps p) (max_tokens p) (suppress_blank p)
    (suppress_nst p) (language p).
Definition set_print_timestamps (v : bool) (p : whisper_full_params) :=
  FullParams (print_progress p) (print_realtime p) v (print_special p)
    (translate p) (n_threads p) (single_segment p) (no_context p)
    (audio_ctx p) (token_timestamps p) (max_tokens p) (suppress_blank p)
    (suppress_nst p) (language p).
Definition set_print_special (v : bool) (p : whisper_full_params) :=
  FullParams (print_progress p) (print_realtime p) (print_timestamps p) v
    (translate p) (n_threads p) (single_segment p) (no_context p)
    (audio_ctx p) (token_timestamps p) (max_tokens p) (suppress_blank p)
    (suppress_nst p) (language p).
Definition set_translate (v : bool) (p : whisper_full_params) :=
  FullParams (print_progress p) (print_realtime p) (print_timestamps p)
    (print_special p) v (n_threads p) (single_segment p) (no_context p)
    (audio_ctx p) (token_timestamps p) (max_tokens p) (suppress_blank p)
    (suppress_nst p) (language p).
Definition set_n_threads (v : Z) (p : whisper_full_params) :=
  FullParams (print_progress p) (print_realtime p) (print_timestamps p)
    (print_special p) (translate p) v (single_segment p) (no_context p)
    (audio_ctx p) (token_timestamps p) (max_tokens p) (suppress_blank p)
    (suppress_nst p) (language p).
Definition set_single_segment (v : bool) (p : whisper_full_params) :=
  FullParams (print_progress p) (print_realtime p) (print_timestamps p)
    (print_special p) (translate p) (n_threads p) v (no_context p)
    (audio_ctx p) (token_timestamps p) (max_tokens p) (suppress_blank p)
    (suppress_nst p) (language p).
Definition set_no_context (v : bool) (p : whisper_full_params) :=
  FullParams (print_progress p) (print_realtime p) (print_timestamps p)
    (print_special p) (translate p) (n_threads p) (single_segment p) v
    (audio_ctx p) (token_timestamps p) (max_tokens p) (suppress_blank p)
    (suppress_nst p) (language p).
Definition set_audio_ctx (v : Z) (p : whisper_full_params) :=
  FullParams (print_progress p) (print_realtime p) (print_timestamps p)
    (print_special p) (translate p) (n_threads p) (single_segment p)
    (no_context p) v (token_timestamps p) (max_tokens p) (suppress_blank p)
    (suppress_nst p) (language p).
Definition set_token_timestamps (v : bool) (p : whisper_full_params) :=
  FullParams (print_progress p) (print_realtime p) (print_timestamps p)
    (print_special p) (translate p) (n_threads p) (single_segment p)
    (no_context p) (audio_ctx p) v (max_tokens p) (suppress_blank p)
    (suppress_nst p) (language p).
Definition set_max_tokens (v : Z) (p : whisper_full_params) :=
  FullParams (print_progress p) (print_realtime p) (print_timestamps p)
    (print_special p) (translate p) (n_threads p) (single_segment p)
    (no_context p) (audio_ctx p) (token_timestamps p) v (suppress_blank p)
    (suppress_nst p) (language p).
Definition set_suppress_blank (v : bool) (p : whisper_full_params) :=
  FullParams (print_progress p) (print_realtime p) (print_timestamps p)
    (print_special p) (translate p) (n_threads p) (single_segment p)
    (no_context p) (audio_ctx p) (token_timestamps p) (max_tokens p) v
    (suppress_nst p) (language p).
Definition set_suppress_nst (v : bool) (p : whisper_full_params) :=
  FullParams (print_progress p) (print_realtime p) (print_timestamps p)
    (print_special p) (translate p) (n_threads p) (single_segment p)
    (no_context p) (audio_ctx p) (token_timestamps p) (max_tokens p)
    (suppress_blank p) v (language p).
Definition set_language (v : language_field) (p : whisper_full_params) :=
  FullParams (print_progress p) (print_realtime p) (print_timestamps p)
    (print_special p) (translate p) (n_threads p) (single_segment p)
    (no_context p) (audio_ctx p) (token_timestamps p) (max_tokens p)
    (suppress_blank p) (suppress_nst p) v.

(** Modelled from the spec: the engine, which the spec treats as a given
    black box ("engineOpen", "engineClose", "engineNewState",
    "engineFreeState", "engineRun", "engineSegmentCount", ...).  [mem] is
    whatever the engine keeps between calls.  A routine that allocates
    says whether the allocation succeeds; the address is chosen by the
    model (see [whisper_init_state] below). *)
Class Whisper (mem : Type) : Type := {
  eng_context_default_params : whisper_context_params;
  eng_init_from_file :
    string -> whisper_context_params -> mem -> bool * mem;
  eng_free : Z -> mem -> mem;
  eng_full_default_params : whisper_sampling_strategy -> whisper_full_params;
  eng_lang_id : string -> Z;
  eng_full :
    Z -> whisper_full_params -> list Float32.float -> mem -> Z * mem;
  eng_full_n_segments : Z -> mem -> Z;
  eng_full_get_segment_text : Z -> Z -> mem -> string;
  eng_full_get_segment_t0 : Z -> Z -> mem -> Z;
  eng_full_get_segment_t1 : Z -> Z -> mem -> Z;
  eng_init_state : Z -> mem -> bool * mem;
  eng_state_free : Z -> mem -> mem;
  eng_pcm_to_mel_with_state :
    Z -> Z -> list Float32.float -> Z -> mem -> Z * mem;
  eng_lang_auto_detect_with_state : Z -> Z -> Z -> mem -> Z * mem;
  eng_lang_str : Z -> option string;
  eng_lang_str_full : Z -> option string
}.

(** The engine calls that allocate, release or run, as the log keeps
    them: the arguments and, where there is one, the value returned. *)
Inductive call : Type :=
| CallInitFromFile (path : string) (p : whisper_context_params) (ret : Z)
| CallFree (ctx : Z)
| CallFull (ctx : Z) (p : whisper_full_params)
    (samples : list Float32.float) (ret : Z)
| CallInitState (ctx : Z) (ret : Z)
| CallStateFree (state : Z)
| CallPcmToMel (ctx state : Z) (samples : list Float32.float)
    (threads : Z) (ret : Z)
| CallLangAutoDetect (ctx state : Z) (threads : Z) (ret : Z).

(** ** The world the bindings run in *)

Section Bridge.

Context {mem : Type} {engine_impl : Whisper mem}.

(** The contexts and states that are allocated, the engine's own memory,
    and the log of the calls made so far (oldest first). *)
Record world : Type := World {
  live_ctx : gset Z;
  live_state : gset Z;
  engine_mem : mem;
  engine_log : list call
}.

(** A run either ends with a value in a new world, or invokes undefined
    behaviour in the engine (a released or never allocated handle). *)
Inductive outcome (A : Type) : Type :=
| Crash
| Done (a : A) (w : world).
#[global] Arguments Crash {A}.
#[global] Arguments Done {A} a w.

Definition M (A : Type) : Type := world -> outcome A.

Definition ret {A : Type} (a : A) : M A := fun w => Done a w.

Definition bind {A B : Type} (c : M A) (k : A -> M B) : M B :=
  fun w => match c w with
           | Crash => Crash
           | Done a w' => k a w'
           end.

Notation "x <- c ;; k" := (bind c (fun x => k))
  (at level 100, c at next level, right associativity).
Notation "c ;;; k" := (bind c (fun _ => k))
  (at level 100, right associativity).

(** [for (int i = start; i < start + count; i++) acc = body(i, acc);] *)
Fixpoint for_loop {S : Type} (count : nat) (i : Z)
    (body : Z -> S -> M S) (acc : S) : M S :=
  match count with
  | O => ret acc
  | Datatypes.S count' =>
      acc' <- body i acc ;; for_loop count' (i + 1) body acc'
  end.

(** *** Engine routines, with their effect on the world *)

Definition logged (c : call) (w : world) : world :=
  World (live_ctx w) (live_state w) (engine_mem w) (engine_log w ++ [c]).

(** A new address: not null and not in use. *)
Definition new_handle (used : gset Z) : Z := fresh ({[0]} ∪ used).

Definition whisper_init_from_file_with_params
    (path : string) (p : whisper_context_params) : M Z :=
  fun w =>
    let '(ok, m) := eng_init_from_file path p (engine_mem w) in
    if ok then
      let ctx := new_handle (live_ctx w) in
      Done ctx (World ({[ctx]} ∪ live_ctx w) (live_state w) m
                  (engine_log w ++ [CallInitFromFile path p ctx]))
    else
      Done 0 (World (live_ctx w) (live_state w) m
                (engine_log w ++ [CallInitFromFile path p 0])).

Definition whisper_free (ctx : Z) : M unit :=
  fun w =>
    if decide (ctx ∈ live_ctx w) then
      Done tt (World (live_ctx w ∖ {[ctx]}) (live_state w)
                 (eng_free ctx (engine_mem w))
                 (engine_log w ++ [CallFree ctx]))
    else Crash.

Definition whisper_full (ctx : Z) (p : whisper_full_params)
    (samples : list Float32.float) : M Z :=
  fun w =>
    if decide (ctx ∈ live_ctx w) then
      let '(status, m) := eng_full ctx p samples (engine_mem w) in
      Done status (World (live_ctx w) (live_state w) m
                     (engine_log w ++ [CallFull ctx p samples status]))
    else Crash.

(** Reading the result of the last run out of a context. *)
Definition read_ctx {A : Type} (ctx : Z) (f : mem -> A) : M A :=
  fun w => if decide (ctx ∈ live_ctx w) then Done (f (engine_mem w)) w
           else Crash.

Definition whisper_full_n_segments (ctx : Z) : M Z :=
  read_ctx ctx (eng_full_n_segments ctx).
Definition whisper_full_get_segment_text (ctx i : Z) : M string :=
  read_ctx ctx (eng_full_get_segment_text ctx i).
Definition whisper_full_get_segment_t0 (ctx i : Z) : M Z :=
  read_ctx ctx (eng_full_get_segment_t0 ctx i).
Definition whisper_full_get_segment_t1 (ctx i : Z) : M Z :=
  read_ctx ctx (eng_full_get_segment_t1 ctx i).

Definition whisper_init_state (ctx : Z) : M Z :=
  fun w =>
    if decide (ctx ∈ live_ctx w) then
      let '(ok, m) := eng_init_state ctx (engine_mem w) in
      if ok then
        let st := new_handle (live_state w) in
        Done st (World (live_ctx w) ({[st]} ∪ live_state w) m
                   (engine_log w ++ [CallInitState ctx st]))
      else
        Done 0 (World (live_ctx w) (live_state w) m
                  (engine_log w ++ [CallInitState ctx 0]))
    else Crash.

Definition whisper_state_free (st : Z) : M unit :=
  fun w =>
    if decide (st ∈ live_state w) then
      Done tt (World (live_ctx w) (live_state w ∖ {[st]})
                 (eng_state_free st (engine_mem w))
                 (engine_log w ++ [CallStateFree st]))
    else Crash.

Definition whisper_pcm_to_mel_with_state (ctx st : Z)
    (samples : list Float32.float) (threads : Z) : M Z :=
  fun w =>
    if decide (ctx ∈ live_ctx w) then
      if decide (st ∈ live_state w) then
        let '(res, m) :=
          eng_pcm_to_mel_with_state ctx st samples threads (engine_mem w) in
        Done res (World (live_ctx w) (live_state w) m
          (engine_log w ++ [CallPcmToMel ctx st samples threads res]))
      else Crash
    else Crash.

Definition whisper_lang_auto_detect_with_state (ctx st threads : Z) : M Z :=
  fun w =>
    if decide (ctx ∈ live_ctx w) then
      if decide (st ∈ live_state w) then
        let '(id, m) :=
          eng_lang_auto_detect_with_state ctx st threads (engine_mem w) in
        Done id (World (live_ctx w) (live_state w) m
          (engine_log w ++ [CallLangAutoDetect ctx st threads id]))
      else Crash
    else Crash.

(** ** The JSON binding, [cpp/whisper-jni.cpp] *)

(** [{"error":"<msg>"}] *)
Definition err_json (msg : string) : string :=
  "{" +:+ quoted "error" +:+ ":" +:+ quoted msg +:+ "}".

Definition initContext (modelPathStr : string) : M Z :=
  let params := eng_context_default_params in
  ctx <- whisper_init_from_file_with_params modelPathStr params ;;
  if ctx =? 0 then ret 0 else ret ctx.

Definition freeContext (contextPtr : Z) : M unit :=
  let ctx := contextPtr in
  if negb (ctx =? 0) then whisper_free ctx else ret tt.

(** The parameter block of [fullTranscribe]. *)
Definition fullTranscribe_params (language : string) (translate : bool)
    (maxTokens : Z) (suppressBlank suppressNst : bool)
    : whisper_full_params :=
  let params := eng_full_default_params WHISPER_SAMPLING_GREEDY in
  let params := set_print_progress false params in
  let params := set_print_realtime false params in
  let params := set_suppress_blank suppressBlank params in
  let params := set_suppress_nst suppressNst params in
  let params :=
    if 0 <? maxTokens then set_max_tokens maxTokens params else params in
  let params := if translate then set_translate true params else params in
  let params :=
    if negb (String.eqb language "auto")
    then set_language (LangId (eng_lang_id language)) params
    else params in
  params.

(** One iteration of the first loop: [json << text;] *)
Definition json_text_step (ctx i : Z) (json : string) : M string :=
  text <- whisper_full_get_segment_text ctx i ;;
  ret (json +:+ text).

(** One iteration of the second loop: the segment object, after a comma
    unless it is the first. *)
Definition json_segment_step (ctx i : Z) (json : string) : M string :=
  text <- whisper_full_get_segment_text ctx i ;;
  t0 <- whisper_full_get_segment_t0 ctx i ;;
  t1 <- whisper_full_get_segment_t1 ctx i ;;
  let json := json +:+ (if 0 <? i then "," else EmptyString) +:+ "{" in
  let json := json +:+ quoted "text" +:+ ": " +:+ dq +:+ text +:+ dq +:+ "," in
  let json := json +:+ quoted "t0" +:+ ": " +:+ show_int t0 +:+ "," in
  let json := json +:+ quoted "t1" +:+ ": " +:+ show_int t1 in
  ret (json +:+ "}").

Definition fullTranscribe (contextPtr : Z) (audioData : list byte)
    (languageStr : string) (translate : bool) (maxTokens : Z)
    (suppressBlank suppressNst : bool) : M string :=
  let ctx := contextPtr in
  if ctx =? 0 then ret "{}" else
  let language := languageStr in
  let len := Wav.len audioData in
  if len <? 44 then ret (err_json "Invalid WAV") else
  let samples := Wav.samples audioData in
  let params :=
    fullTranscribe_params language translate maxTokens
      suppressBlank suppressNst in
  status <- whisper_full ctx params samples ;;
  if negb (status =? 0) then ret (err_json "Transformation failed") else
  let json := "{" +:+ quoted "text" +:+ ": " +:+ dq in
  n_segments <- whisper_full_n_segments ctx ;;
  json <- for_loop (Z.to_nat n_segments) 0 (json_text_step ctx) json ;;
  let json := json +:+ dq +:+ ", " +:+ quoted "segments" +:+ ": [" in
  json <- for_loop (Z.to_nat n_segments) 0 (json_segment_step ctx) json ;;
  ret (json +:+ "]}").

(** ** The structured binding, [jni/whisper_jni.cpp] *)

Definition nativeInitContext (modelPath : string)
    (useGpu useFlashAttn : bool) : M Z :=
  let params := eng_context_default_params in
  let params := ContextParams useGpu (flash_attn params) in
  let params := ContextParams (use_gpu params) useFlashAttn in
  ctx <- whisper_init_from_file_with_params modelPath params ;;
  if ctx =? 0 then ret 0 else ret ctx.

Definition nativeFreeContext (contextPtr : Z) : M unit :=
  let ctx := contextPtr in
  if negb (ctx =? 0) then whisper_free ctx else ret tt.

(** The parameter block of [nativeTranscribe]; [language] is [None] for
    a null [jstring]. *)
Definition nativeTranscribe_params (language : option string)
    (translate : bool) (maxTokens : Z) : whisper_full_params :=
  let params := eng_full_default_params WHISPER_SAMPLING_GREEDY in
  let params := set_print_realtime false params in
  let params := set_print_progress false params in
  let params := set_print_timestamps false params in
  let params := set_print_special false params in
  let params := set_translate translate params in
  let params := set_n_threads 4 params in
  let params := set_single_segment false params in
  let params := set_token_timestamps true params in
  let params :=
    if 0 <? maxTokens then set_max_tokens maxTokens params else params in
  let params :=
    match language with
    | Some lang => set_language (LangTag lang) params
    | None => set_language (LangTag "auto") params
    end in
  params.

(** The [HashMap] of one segment. *)
Definition segment_map (text : string) (t0 t1 : Z) : gmap string jvalue :=
  <["t1" := JLong t1]> (<["t0" := JLong t0]> (<["text" := JString text]> ∅)).

(** One iteration of the loop of [nativeTranscribe]: the text is added
    to [fullText] and the segment's map to [segmentsList]. *)
Definition transcribe_step (ctx i : Z) (acc : string * list jvalue)
    : M (string * list jvalue) :=
  let '(fullText, segmentsList) := acc in
  text <- whisper_full_get_segment_text ctx i ;;
  t0 <- whisper_full_get_segment_t0 ctx i ;;
  t1 <- whisper_full_get_segment_t1 ctx i ;;
  let fullText := fullText +:+ text in
  let segmentMap := segment_map text t0 t1 in
  ret (fullText, segmentsList ++ [JMap segmentMap]).

Definition nativeTranscribe (contextPtr : Z)
    (audioData : list Float32.float) (language : option string)
    (translate : bool) (maxTokens : Z) : M jobject :=
  let ctx := contextPtr in
  if ctx =? 0 then ret None else
  let samples := audioData in
  let params := nativeTranscribe_params language translate maxTokens in
  result <- whisper_full ctx params samples ;;
  if negb (result =? 0) then ret None else
  nSegments <- whisper_full_n_segments ctx ;;
  acc <- for_loop (Z.to_nat nSegments) 0 (transcribe_step ctx)
           (EmptyString, []) ;;
  let '(fullText, segmentsList) := acc in
  let resultMap :=
    <["segments" := JList segmentsList]>
      (<["result" := JString fullText]> ∅) in
  ret (Some (JMap resultMap)).

(** [float confidence = 0.9f;] the binary32 number nearest to 0.9. *)
Definition confidence_0_9 : Float32.float :=
  S754_finite false 15099494 (-24).

Definition nativeDetectLanguageWithState (contextPtr : Z)
    (audioData : list Float32.float) (nThreads : Z) : M jobject :=
  let ctx := contextPtr in
  if ctx =? 0 then ret None else
  let samples := audioData in
  state <- whisper_init_state ctx ;;
  if state =? 0 then ret None else
  res <- whisper_pcm_to_mel_with_state ctx state samples 0 ;;
  if negb (res =? 0) then (whisper_state_free state ;;; ret None) else
  language_id <- whisper_lang_auto_detect_with_state ctx state nThreads ;;
  if language_id <? 0 then (whisper_state_free state ;;; ret None) else
  match eng_lang_str language_id with
  | None => whisper_state_free state ;;; ret None
  | Some langCode =>
      let langName :=
        match eng_lang_str_full language_id with
        | Some name => name
        | None => langCode
        end in
      let confidence := confidence_0_9 in
      let resultMap :=
        <["languageName" := JString langName]>
          (<["confidence" := JDouble confidence]>
             (<["language" := JString langCode]> ∅)) in
      whisper_state_free state ;;;
      ret (Some (JMap resultMap))
  end.

(** The parameter block of the streaming start. *)
Definition startChunked_params (language : option string)
    (translate : bool) (maxTokens : Z) (audioContext : Z)
    (singleSegment noContext : bool) (nThreads : Z)
    : whisper_full_params :=
  let params := eng_full_default_params WHISPER_SAMPLING_GREEDY in
  let params := set_print_realtime false params in
  let params := set_print_progress false params in
  let params := set_print_timestamps false params in
  let params := set_print_special false params in
  let params := set_translate translate params in
  let params := set_n_threads nThreads params in
  let params := set_single_segment singleSegment params in
  let params := set_no_context noContext params in
  let params := set_audio_ctx audioContext params in
  let params := set_token_timestamps true params in
  let params :=
    if 0 <? maxTokens then set_max_tokens maxTokens params else params in
  let params :=
    match language with
    | Some lang => set_language (LangTag lang) params
    | None => set_language (LangTag "auto") params
    end in
  params.

(** The parameters are built and then dropped: nothing is run. *)
Definition nativeStartChunkedRealtimeTranscribeWithState (contextPtr : Z)
    (samplesPerChunk : Z) (language : option string) (translate : bool)
    (maxTokens : Z) (useVad : bool) (audioContext : Z)
    (singleSegment noContext : bool) (nThreads : Z) : M bool :=
  let ctx := contextPtr in
  if ctx =? 0 then ret false else
  state <- whisper_init_state ctx ;;
  if state =? 0 then ret false else
  let params :=
    startChunked_params language translate maxTokens audioContext
      singleSegment noContext nThreads in
  whisper_state_free state ;;;
  ret true.

End Bridge.

(** ** Reading the engine's result, in the words of the specification *)

Section Reference.

Context {mem : Type} {engine_impl : Whisper mem}.

(** A segment as the engine reports it: text, start and end time. *)
Definition segment : Type := string * Z * Z.


(** The texts of the segments, one after the other. *)
Definition concat_texts (segs : list segment) : string :=
  fold_right (fun s acc => s.1.1 +:+ acc) EmptyString segs.

(** A segment as the structured binding returns it. *)
Definition segment_value (s : segment) : jvalue :=
  JMap (segment_map s.1.1 s.1.2 s.2).

(** The result object of the structured binding for a list of segments. *)
Definition result_value (segs : list segment) : jvalue :=
  JMap (<["segments" := JList (map segment_value segs)]>
          (<["result" := JString (concat_texts segs)]> ∅)).

(** A segment as the JSON binding prints it. *)
Definition segment_json (s : segment) : string :=
  "{" +:+ quoted "text" +:+ ": " +:+ quoted s.1.1 +:+ "," +:+
  quoted "t0" +:+ ": " +:+ show_int s.1.2 +:+ "," +:+
  quoted "t1" +:+ ": " +:+ show_int s.2 +:+ "}".

(** Segment objects separated by commas. *)
Fixpoint segments_json (segs : list segment) : string :=
  match segs with
  | [] => EmptyString
  | [s] => segment_json s
  | s :: rest => segment_json s +:+ "," +:+ segments_json rest
  end.

(** The segment the engine reports at index [i]. *)
Definition segment_at (ctx : Z) (m : mem) (i : nat) : segment :=
  (eng_full_get_segment_text ctx (Z.of_nat i) m,
   eng_full_get_segment_t0 ctx (Z.of_nat i) m,
   eng_full_get_segment_t1 ctx (Z.of_nat i) m).

(** The engine-reported segments of a context, indices 0 .. n-1 in that
    order. *)
Definition engine_segments (ctx : Z) (m : mem) : list segment :=
  map (segment_at ctx m) (seq 0 (Z.to_nat (eng_full_n_segments ctx m))).

(** Segment objects, each after a comma. *)
Definition commas_json (segs : list segment) : string :=
  fold_right (fun s acc => "," +:+ segment_json s +:+ acc) EmptyString segs.

(** The document of the JSON binding for a list of segments. *)
Definition result_json (segs : list segment) : string :=
  "{" +:+ quoted "text" +:+ ": " +:+ quoted (concat_texts segs) +:+
  ", " +:+ quoted "segments" +:+ ": [" +:+ segments_json segs +:+ "]}".

(** The states a sequence of calls leaves allocated: those it created
    and did not release. *)
Fixpoint states_held (calls : list call) (held : list Z) : list Z :=
  match calls with
  | [] => held
  | CallInitState _ st :: rest =>
      states_held rest (if st =? 0 then held else held ++ [st])
  | CallStateFree st :: rest =>
      states_held rest (filter (fun s => s ≠ st) held)
  | _ :: rest => states_held rest held
  end.

(** An engine call that reported failure to the binding: a nonzero
    status, a null state, a negative language id or one without a
    code. *)
Definition call_failed (c : call) : bool :=
  match c with
  | CallFull _ _ _ status => negb (status =? 0)
  | CallInitState _ st => st =? 0
  | CallPcmToMel _ _ _ _ res => negb (res =? 0)
  | CallLangAutoDetect _ _ _ id =>
      (id <? 0) || negb (bool_decide (is_Some (eng_lang_str id)))
  | CallInitFromFile _ _ ctx => ctx =? 0
  | CallFree _ | CallStateFree _ => false
  end.

(** The causes of failure the bridge can meet, after the spec's
    taxonomy. *)
Inductive failure : Type :=
| InvalidAudioFormat
| EmptyAudio
| ModelLoadFailed
| InvalidHandle
| UnsupportedLanguage
| TranscriptionFailed (code : Z)
| StateInitFailed
| DetectionFailed (code : Z)
| UnknownLanguage.

End Reference.

(** ** A small engine to run the bindings on

    Its memory is a script: the status the next run reports, whether
    allocations succeed, the language the detector answers and the
    segments a run leaves behind. *)

Record toy_mem : Type := ToyMem {
  toy_status : Z;
  toy_alloc : bool;
  toy_lang : Z;
  toy_segments : list segment
}.

Definition toy_lang_id (tag : string) : Z :=
  if String.eqb tag "en" then 0
  else if String.eqb tag "de" then 2
  else -1.

Definition toy_lang_str (id : Z) : option string :=
  if id =? 0 then Some "en" else if id =? 2 then Some "de" else None.

Definition toy_lang_str_full (id : Z) : option string :=
  if id =? 0 then Some "english" else if id =? 2 then Some "german" else None.

Definition toy_default_params : whisper_full_params :=
  FullParams true false true false false 4 false false 0 false 0 true true
    (LangTag "en").

Definition toy_segment (i : Z) (m : toy_mem) : segment :=
  nth (Z.to_nat i) (toy_segments m) (EmptyString, 0, 0).

#[export] Instance toy_engine : Whisper toy_mem := {|
  eng_context_default_params := ContextParams true false;
  eng_init_from_file := fun _ _ m => (toy_alloc m, m);
  eng_free := fun _ m => m;
  eng_full_default_params := fun _ => toy_default_params;
  eng_lang_id := toy_lang_id;
  eng_full := fun _ _ _ m => (toy_status m, m);
  eng_full_n_segments := fun _ m => Z.of_nat (length (toy_segments m));
  eng_full_get_segment_text := fun _ i m => (toy_segment i m).1.1;
  eng_full_get_segment_t0 := fun _ i m => (toy_segment i m).1.2;
  eng_full_get_segment_t1 := fun _ i m => (toy_segment i m).2;
  eng_init_state := fun _ m => (toy_alloc m, m);
  eng_state_free := fun _ m => m;
  eng_pcm_to_mel_with_state := fun _ _ _ _ m => (toy_status m, m);
  eng_lang_auto_detect_with_state := fun _ _ _ m => (toy_lang m, m);
  eng_lang_str := toy_lang_str;
  eng_lang_str_full := toy_lang_str_full
|}.

(** A world with one context, handle 1, and no state. *)
Definition toy_world (status : Z) (alloc : bool) (lang : Z)
    (segs : list segment) : @world toy_mem :=
  World {[1]} ∅ (ToyMem status alloc lang segs) [].

(** Three segments, the middle one with an empty text. *)
Definition toy_three : list segment :=
  [(" Hello", 0, 120); (EmptyString, 120, 150); (" world.", 150, 300)].

(** A WAV buffer: a 44-byte header and the given payload. *)
Definition wav_of (payload : list byte) : list byte :=
  repeat "000"%byte 44 ++ payload.

(** The outcome of a run without its world. *)
Definition result_of {mem A : Type} (o : @outcome mem A) : option A :=
  match o with
  | Crash => None
  | Done a _ => Some a
  end.

(** The world a run ends in. *)
Definition world_of {mem A : Type} (o : @outcome mem A) : option (@world mem) :=
  match o with
  | Crash => None
  | Done _ w => Some w
  end.

(** * Properties *)

(** ** Strings *)

Lemma append_cons (c : Ascii.ascii) (s t : string) :
  String c s +:+ t = String c (s +:+ t).
Proof. reflexivity. Qed.

Lemma append_nil_r (s : string) : s +:+ EmptyString = s.
Proof.
  induction s as [|c s IH]; [reflexivity|].
  now rewrite append_cons, IH.
Qed.

Lemma append_assoc (a b c : string) : (a +:+ b) +:+ c = a +:+ (b +:+ c).
Proof.
  induction a as [|x a IH]; [reflexivity|].
  now rewrite !append_cons, IH.
Qed.

(** ** The decoder *)

Lemma exact_everywhere :
  forallb (fun lo => forallb (Wav.exact_at lo) Wav.byte_range) Wav.byte_range
  = true.
Proof. vm_compute. reflexivity. Qed.

Lemma byte_val_in_range (b : byte) : In (Wav.byte_val b) Wav.byte_range.
Proof.
  unfold Wav.byte_range, Wav.byte_val.
  apply in_map_iff. exists (N.to_nat (Byte.to_N b)). split.
  - now rewrite <- nat_N_Z, N2Nat.id.
  - apply in_seq. pose proof (Byte.to_N_bounded b). lia.
Qed.

Lemma exact_at_bytes (lo hi : byte) :
  Wav.exact_at (Wav.byte_val lo) (Wav.byte_val hi) = true.
Proof.
  pose proof exact_everywhere as H.
  rewrite forallb_forall in H.
  specialize (H _ (byte_val_in_range lo)).
  rewrite forallb_forall in H.
  exact (H _ (byte_val_in_range hi)).
Qed.

(** Reading two bytes as a little-endian [int16_t] gives the
    two's-complement value of the 16-bit pattern. *)
Lemma int16_le_value (lo hi : byte) :
  Wav.int16_le lo hi = Wav.int16_value (Wav.byte_val lo) (Wav.byte_val hi).
Proof.
  pose proof (exact_at_bytes lo hi) as H.
  unfold Wav.exact_at in H. fold (Wav.int16_le lo hi) in H.
  apply andb_prop in H as [H _]. now apply Z.eqb_eq in H.
Qed.

(** Dividing a 16-bit integer by 32768 in single precision is exact. *)
Lemma normalize_exact (lo hi : byte) :
  Float32.denotes (Wav.normalize (Wav.int16_le lo hi))
                  (Wav.int16_le lo hi # 32768)
  /\ Float32.unit_range (Wav.normalize (Wav.int16_le lo hi)).
Proof.
  pose proof (exact_at_bytes lo hi) as H.
  unfold Wav.exact_at in H. fold (Wav.int16_le lo hi) in H.
  apply andb_prop in H as [_ H].
  destruct (Float32.to_Q (Wav.normalize (Wav.int16_le lo hi)))
    as [q|] eqn:Hq; [|discriminate].
  apply andb_prop in H as [H H1]. apply andb_prop in H as [He H0].
  apply Qeq_bool_eq in He. apply Qle_bool_imp_le in H0, H1.
  split; exists q; auto.
Qed.

Lemma samples_length (bytes : list byte) :
  length (Wav.samples bytes) = Z.to_nat (Wav.pcmLen bytes).
Proof. unfold Wav.samples. now rewrite length_map, length_seq. Qed.

Lemma samples_nth (bytes : list byte) (i : nat) d :
  (i < Z.to_nat (Wav.pcmLen bytes))%nat ->
  nth i (Wav.samples bytes) d = Wav.sample bytes i.
Proof.
  intros Hi. unfold Wav.samples.
  rewrite (nth_indep _ d (Wav.sample bytes 0)) by
    now rewrite length_map, length_seq.
  rewrite (map_nth (Wav.sample bytes)), seq_nth by assumption.
  reflexivity.
Qed.

(** ** Loops that only read the engine's result *)

Section BridgeFacts.

Context {mem : Type} {engine_impl : Whisper mem}.

Implicit Types (w : @world mem) (ctx : Z).

Lemma read_ctx_live {A : Type} ctx (f : mem -> A) w :
  ctx ∈ live_ctx w -> read_ctx ctx f w = Done (f (engine_mem w)) w.
Proof. intros H. unfold read_ctx. now rewrite decide_True. Qed.

Lemma for_loop_readonly {S : Type} (body : Z -> S -> M S)
    (f : nat -> S -> S) w :
  (forall i acc, body (Z.of_nat i) acc w = Done (f i acc) w) ->
  forall n k acc,
    for_loop n (Z.of_nat k) body acc w
    = Done (fold_left (fun a i => f i a) (seq k n) acc) w.
Proof.
  intros Hbody n. induction n as [|n IH]; intros k acc; [reflexivity|].
  cbn [for_loop seq fold_left]. unfold bind. rewrite Hbody.
  replace (Z.of_nat k + 1) with (Z.of_nat (Datatypes.S k)) by lia.
  apply IH.
Qed.

Lemma json_text_step_live ctx w (i : nat) (json : string) :
  ctx ∈ live_ctx w ->
  json_text_step ctx (Z.of_nat i) json w
  = Done (json +:+ (segment_at ctx (engine_mem w) i).1.1) w.
Proof.
  intros H. unfold json_text_step, bind, whisper_full_get_segment_text.
  now rewrite read_ctx_live.
Qed.

Lemma json_segment_step_live ctx w (i : nat) (json : string) :
  ctx ∈ live_ctx w ->
  json_segment_step ctx (Z.of_nat i) json w
  = Done (json +:+ (if (0 <? Z.of_nat i) then "," else EmptyString)
               +:+ segment_json (segment_at ctx (engine_mem w) i)) w.
Proof.
  intros H.
  unfold json_segment_step, bind, whisper_full_get_segment_text,
    whisper_full_get_segment_t0, whisper_full_get_segment_t1.
  rewrite !read_ctx_live by assumption. unfold ret. f_equal.
  unfold segment_json, segment_at, quoted; cbn [fst snd].
  now rewrite !append_assoc.
Qed.

Lemma transcribe_step_live ctx w (i : nat) (acc : string * list jvalue) :
  ctx ∈ live_ctx w ->
  transcribe_step ctx (Z.of_nat i) acc w
  = Done (acc.1 +:+ (segment_at ctx (engine_mem w) i).1.1,
          acc.2 ++ [segment_value (segment_at ctx (engine_mem w) i)]) w.
Proof.
  intros H. destruct acc as [fullText segmentsList].
  unfold transcribe_step, bind, whisper_full_get_segment_text,
    whisper_full_get_segment_t0, whisper_full_get_segment_t1.
  now rewrite !read_ctx_live by assumption.
Qed.

(** *** What the loops compute *)

Lemma fold_texts {I : Type} (g : I -> segment) (l : list I) (acc : string) :
  fold_left (fun a i => a +:+ (g i).1.1) l acc
  = acc +:+ concat_texts (map g l).
Proof.
  revert acc. induction l as [|i l IH]; intros acc; cbn.
  - now rewrite append_nil_r.
  - now rewrite IH, append_assoc.
Qed.

Lemma fold_commas {I : Type} (g : I -> segment) (l : list I) (acc : string) :
  fold_left (fun a i => a +:+ "," +:+ segment_json (g i)) l acc
  = acc +:+ commas_json (map g l).
Proof.
  revert acc. induction l as [|i l IH]; intros acc; cbn.
  - now rewrite append_nil_r.
  - now rewrite IH, !append_assoc.
Qed.

Lemma segments_json_cons (s : segment) (rest : list segment) :
  segments_json (s :: rest) = segment_json s +:+ commas_json rest.
Proof.
  revert s. induction rest as [|s' rest IH]; intros s.
  - cbn. now rewrite append_nil_r.
  - change (segments_json (s :: s' :: rest))
      with (segment_json s +:+ "," +:+ segments_json (s' :: rest)).
    rewrite IH. reflexivity.
Qed.

Lemma fold_segments (g : nat -> segment) (n : nat) (acc : string) :
  fold_left
    (fun a i => a +:+ (if 0 <? Z.of_nat i then "," else EmptyString)
                  +:+ segment_json (g i))
    (seq 0 n) acc
  = acc +:+ segments_json (map g (seq 0 n)).
Proof.
  destruct n as [|n]; cbn [seq fold_left map].
  - cbn. now rewrite append_nil_r.
  - rewrite segments_json_cons.
    change (0 <? Z.of_nat 0) with false. cbv iota.
    change (EmptyString +:+ segment_json (g 0%nat)) with (segment_json (g 0%nat)).
    rewrite <- append_assoc, <- (fold_commas g (seq 1 n)).
    generalize (acc +:+ segment_json (g 0%nat)). intros a.
    assert (Hpos : forall k l a', (forall i, In i l -> (k <= i)%nat) ->
      (0 < k)%nat ->
      fold_left (fun a i => a +:+ (if 0 <? Z.of_nat i then "," else EmptyString)
                             +:+ segment_json (g i)) l a'
      = fold_left (fun a i => a +:+ "," +:+ segment_json (g i)) l a').
    { intros k l. induction l as [|i l IH]; intros a' Hl Hk; [reflexivity|].
      cbn [fold_left].
      assert ((0 <? Z.of_nat i) = true) as ->.
      { apply Z.ltb_lt. specialize (Hl i (or_introl eq_refl)). lia. }
      apply IH; [|assumption]. intros j Hj. apply Hl. now right. }
    apply (Hpos 1%nat); [|lia]. intros i Hi. apply in_seq in Hi. lia.
Qed.

Lemma fold_transcribe {I : Type} (g : I -> segment) (l : list I)
    (acc : string * list jvalue) :
  fold_left (fun a i => (a.1 +:+ (g i).1.1, a.2 ++ [segment_value (g i)]))
            l acc
  = (acc.1 +:+ concat_texts (map g l),
     acc.2 ++ map segment_value (map g l)).
Proof.
  revert acc. induction l as [|i l IH]; intros [t sl]; cbn [fold_left map].
  - cbn. now rewrite append_nil_r, app_nil_r.
  - rewrite IH. cbn [fst snd concat_texts fold_right].
    now rewrite append_assoc, <- app_assoc.
Qed.

(** ** The runs of the two transcribe bindings *)

Lemma fullTranscribe_null audioData languageStr translate maxTokens
    suppressBlank suppressNst w :
  fullTranscribe 0 audioData languageStr translate maxTokens
    suppressBlank suppressNst w = Done "{}" w.
Proof. reflexivity. Qed.

Lemma fullTranscribe_short ctx audioData languageStr translate maxTokens
    suppressBlank suppressNst w :
  ctx <> 0 -> Wav.len audioData < 44 ->
  fullTranscribe ctx audioData languageStr translate maxTokens
    suppressBlank suppressNst w = Done (err_json "Invalid WAV") w.
Proof.
  intros Hctx Hlen. unfold fullTranscribe.
  apply Z.eqb_neq in Hctx. rewrite Hctx.
  apply Z.ltb_lt in Hlen. now rewrite Hlen.
Qed.

(** The world after a run of the engine on [ctx]. *)
Lemma whisper_full_live ctx p samples w :
  ctx ∈ live_ctx w ->
  whisper_full ctx p samples w
  = Done (eng_full ctx p samples (engine_mem w)).1
      (World (live_ctx w) (live_state w)
         (eng_full ctx p samples (engine_mem w)).2
         (engine_log w ++
            [CallFull ctx p samples
               (eng_full ctx p samples (engine_mem w)).1])).
Proof.
  intros H. unfold whisper_full. rewrite decide_True by assumption.
  now destruct (eng_full ctx p samples (engine_mem w)).
Qed.

Lemma fullTranscribe_run ctx audioData languageStr translate maxTokens
    suppressBlank suppressNst w :
  ctx <> 0 -> ctx ∈ live_ctx w -> 44 <= Wav.len audioData ->
  let p := fullTranscribe_params languageStr translate maxTokens
             suppressBlank suppressNst in
  let r := eng_full ctx p (Wav.samples audioData) (engine_mem w) in
  fullTranscribe ctx audioData languageStr translate maxTokens
    suppressBlank suppressNst w
  = Done (if r.1 =? 0 then result_json (engine_segments ctx r.2)
          else err_json "Transformation failed")
      (World (live_ctx w) (live_state w) r.2
         (engine_log w ++ [CallFull ctx p (Wav.samples audioData) r.1])).
Proof.
  intros Hctx Hlive Hlen p r. unfold fullTranscribe.
  apply Z.eqb_neq in Hctx. rewrite Hctx.
  apply Z.ltb_ge in Hlen. rewrite Hlen.
  unfold bind at 1. rewrite whisper_full_live by assumption.
  fold p. fold r. set (w1 := World _ _ _ _).
  assert (Hlive1 : ctx ∈ live_ctx w1) by exact Hlive.
  destruct (r.1 =? 0); [|reflexivity]. cbn [negb].
  unfold bind at 1. unfold whisper_full_n_segments.
  rewrite read_ctx_live by assumption.
  unfold bind at 1.
  rewrite (for_loop_readonly (json_text_step ctx)
             (fun i a => a +:+ (segment_at ctx (engine_mem w1) i).1.1) w1
             (fun i a => json_text_step_live ctx w1 i a Hlive1)
             _ 0%nat).
  unfold bind at 1.
  rewrite (for_loop_readonly (json_segment_step ctx)
             (fun i a => a +:+ (if 0 <? Z.of_nat i then "," else EmptyString)
                           +:+ segment_json (segment_at ctx (engine_mem w1) i))
             w1
             (fun i a => json_segment_step_live ctx w1 i a Hlive1)
             _ 0%nat).
  unfold ret. f_equal.
  rewrite (fold_texts (segment_at ctx (engine_mem w1))).
  rewrite (fold_segments (segment_at ctx (engine_mem w1))).
  unfold result_json, engine_segments, quoted. cbn [engine_mem w1].
  now rewrite !append_assoc.
Qed.

Lemma nativeTranscribe_null audioData language translate maxTokens w :
  nativeTranscribe 0 audioData language translate maxTokens w = Done None w.
Proof. reflexivity. Qed.

Lemma nativeTranscribe_run ctx audioData language translate maxTokens w :
  ctx <> 0 -> ctx ∈ live_ctx w ->
  let p := nativeTranscribe_params language translate maxTokens in
  let r := eng_full ctx p audioData (engine_mem w) in
  nativeTranscribe ctx audioData language translate maxTokens w
  = Done (if r.1 =? 0 then Some (result_value (engine_segments ctx r.2))
          else None)
      (World (live_ctx w) (live_state w) r.2
         (engine_log w ++ [CallFull ctx p audioData r.1])).
Proof.
  intros Hctx Hlive p r. unfold nativeTranscribe.
  apply Z.eqb_neq in Hctx. rewrite Hctx.
  unfold bind at 1. rewrite whisper_full_live by assumption.
  fold p. fold r. set (w1 := World _ _ _ _).
  assert (Hlive1 : ctx ∈ live_ctx w1) by exact Hlive.
  destruct (r.1 =? 0); [|reflexivity]. cbn [negb].
  unfold bind at 1. unfold whisper_full_n_segments.
  rewrite read_ctx_live by assumption.
  unfold bind at 1.
  rewrite (for_loop_readonly (transcribe_step ctx)
             (fun i a =>
                (a.1 +:+ (segment_at ctx (engine_mem w1) i).1.1,
                 a.2 ++ [segment_value (segment_at ctx (engine_mem w1) i)]))
             w1
             (fun i a => transcribe_step_live ctx w1 i a Hlive1)
             _ 0%nat).
  rewrite (fold_transcribe (segment_at ctx (engine_mem w1))).
  reflexivity.
Qed.

(** ** Allocation and release of states *)

Lemma new_handle_fresh (used : gset Z) :
  (new_handle used ∉ used) /\ new_handle used <> 0.
Proof.
  unfold new_handle.
  pose proof (is_fresh ({[0]} ∪ used)) as H.
  split; [set_solver|]. intros Heq. apply H. rewrite Heq. set_solver.
Qed.

Lemma release_new (used : gset Z) :
  ({[new_handle used]} ∪ used) ∖ {[new_handle used]} = used.
Proof.
  pose proof (new_handle_fresh used) as [H _].
  apply set_eq. intros x.
  rewrite elem_of_difference, elem_of_union, elem_of_singleton.
  split; [tauto|]. intros Hx. split; [tauto|]. congruence.
Qed.

Lemma app_log {A : Type} (l : list A) (a b : A) :
  (l ++ [a]) ++ [b] = l ++ [a; b].
Proof. now rewrite <- app_assoc. Qed.

Lemma whisper_init_state_live ctx w :
  ctx ∈ live_ctx w ->
  let a := eng_init_state ctx (engine_mem w) in
  let st := new_handle (live_state w) in
  whisper_init_state ctx w
  = if a.1
    then Done st (World (live_ctx w) ({[st]} ∪ live_state w) a.2
                    (engine_log w ++ [CallInitState ctx st]))
    else Done 0 (World (live_ctx w) (live_state w) a.2
                   (engine_log w ++ [CallInitState ctx 0])).
Proof.
  intros H a st. unfold whisper_init_state.
  rewrite decide_True by assumption. subst a.
  now destruct (eng_init_state ctx (engine_mem w)) as [[|] m].
Qed.

Lemma whisper_state_free_live st w :
  st ∈ live_state w ->
  whisper_state_free st w
  = Done tt (World (live_ctx w) (live_state w ∖ {[st]})
               (eng_state_free st (engine_mem w))
               (engine_log w ++ [CallStateFree st])).
Proof. intros H. unfold whisper_state_free. now rewrite decide_True. Qed.

Lemma whisper_pcm_to_mel_live ctx st samples threads w :
  ctx ∈ live_ctx w -> st ∈ live_state w ->
  let b := eng_pcm_to_mel_with_state ctx st samples threads (engine_mem w) in
  whisper_pcm_to_mel_with_state ctx st samples threads w
  = Done b.1 (World (live_ctx w) (live_state w) b.2
                (engine_log w ++ [CallPcmToMel ctx st samples threads b.1])).
Proof.
  intros Hc Hs b. unfold whisper_pcm_to_mel_with_state.
  rewrite !decide_True by assumption. subst b.
  now destruct (eng_pcm_to_mel_with_state _ _ _ _ _).
Qed.

Lemma whisper_lang_auto_detect_live ctx st threads w :
  ctx ∈ live_ctx w -> st ∈ live_state w ->
  let c := eng_lang_auto_detect_with_state ctx st threads (engine_mem w) in
  whisper_lang_auto_detect_with_state ctx st threads w
  = Done c.1 (World (live_ctx w) (live_state w) c.2
                (engine_log w ++ [CallLangAutoDetect ctx st threads c.1])).
Proof.
  intros Hc Hs c. unfold whisper_lang_auto_detect_with_state.
  rewrite !decide_True by assumption. subst c.
  now destruct (eng_lang_auto_detect_with_state _ _ _ _).
Qed.

(** ** The runs of language detection and of the streaming start *)

Lemma nativeDetectLanguageWithState_null audioData nThreads w :
  nativeDetectLanguageWithState 0 audioData nThreads w = Done None w.
Proof. reflexivity. Qed.

(** The map language detection returns for a language id with code
    [langCode]. *)
Lemma nativeDetectLanguageWithState_run ctx audioData nThreads w :
  ctx <> 0 -> ctx ∈ live_ctx w ->
  let a := eng_init_state ctx (engine_mem w) in
  let st := new_handle (live_state w) in
  let b := eng_pcm_to_mel_with_state ctx st audioData 0 a.2 in
  let c := eng_lang_auto_detect_with_state ctx st nThreads b.2 in
  let answer (langCode : string) : jvalue :=
    JMap (<["languageName" :=
              JString (default langCode (eng_lang_str_full c.1))]>
            (<["confidence" := JDouble confidence_0_9]>
               (<["language" := JString langCode]> ∅))) in
  nativeDetectLanguageWithState ctx audioData nThreads w
  = if a.1 then
      if b.1 =? 0 then
        Done (if c.1 <? 0 then None else answer <$> eng_lang_str c.1)
          (World (live_ctx w) (live_state w) (eng_state_free st c.2)
             (engine_log w ++
                [CallInitState ctx st; CallPcmToMel ctx st audioData 0 b.1;
                 CallLangAutoDetect ctx st nThreads c.1; CallStateFree st]))
      else
        Done None
          (World (live_ctx w) (live_state w) (eng_state_free st b.2)
             (engine_log w ++
                [CallInitState ctx st; CallPcmToMel ctx st audioData 0 b.1;
                 CallStateFree st]))
    else
      Done None (World (live_ctx w) (live_state w) a.2
                   (engine_log w ++ [CallInitState ctx 0])).
Proof.
  intros Hctx Hlive a st b c answer. unfold nativeDetectLanguageWithState.
  apply Z.eqb_neq in Hctx. rewrite Hctx.
  unfold bind at 1. rewrite whisper_init_state_live by assumption.
  fold a. fold st. destruct a.1; [|reflexivity].
  destruct (new_handle_fresh (live_state w)) as [_ Hst]. fold st in Hst.
  apply Z.eqb_neq in Hst. rewrite Hst.
  set (w1 := World _ _ _ _).
  assert (Hc1 : ctx ∈ live_ctx w1) by exact Hlive.
  assert (Hs1 : st ∈ live_state w1) by (cbn; set_solver).
  unfold bind at 1. rewrite whisper_pcm_to_mel_live by assumption.
  cbn [engine_mem w1]. fold b. set (w2 := World _ _ _ _).
  assert (Hc2 : ctx ∈ live_ctx w2) by exact Hlive.
  assert (Hs2 : st ∈ live_state w2) by exact Hs1.
  assert (Hfree : forall w3 : world,
    live_ctx w3 = live_ctx w -> live_state w3 = {[st]} ∪ live_state w ->
    forall r : jobject,
    bind (whisper_state_free st) (fun _ => ret r) w3
    = Done r (World (live_ctx w) (live_state w)
                (eng_state_free st (engine_mem w3))
                (engine_log w3 ++ [CallStateFree st]))).
  { intros w3 H3c H3s r. unfold bind.
    rewrite whisper_state_free_live by (rewrite H3s; set_solver).
    unfold ret. rewrite H3c, H3s. unfold st. now rewrite release_new. }
  destruct (b.1 =? 0); cbn [negb].
  - unfold bind at 1. rewrite whisper_lang_auto_detect_live by assumption.
    cbn [engine_mem w2]. fold c. set (w3 := World _ _ _ _).
    assert (Hlog : engine_log w3 ++ [CallStateFree st]
                   = engine_log w ++
                       [CallInitState ctx st;
                        CallPcmToMel ctx st audioData 0 b.1;
                        CallLangAutoDetect ctx st nThreads c.1;
                        CallStateFree st]).
    { cbn. now rewrite <- !app_assoc. }
    destruct (c.1 <? 0).
    + rewrite (Hfree w3) by reflexivity. now rewrite Hlog.
    + destruct (eng_lang_str c.1) as [langCode|]; cbn [fmap option_fmap option_map].
      * rewrite (Hfree w3) by reflexivity. rewrite Hlog. unfold answer.
        now destruct (eng_lang_str_full c.1).
      * rewrite (Hfree w3) by reflexivity. now rewrite Hlog.
  - rewrite (Hfree w2) by reflexivity. cbn. now rewrite <- !app_assoc.
Qed.

Lemma nativeStartChunked_null samplesPerChunk language translate maxTokens
    useVad audioContext singleSegment noContext nThreads w :
  nativeStartChunkedRealtimeTranscribeWithState 0 samplesPerChunk language
    translate maxTokens useVad audioContext singleSegment noContext
    nThreads w = Done false w.
Proof. reflexivity. Qed.

Lemma nativeStartChunked_run ctx samplesPerChunk language translate
    maxTokens useVad audioContext singleSegment noContext nThreads w :
  ctx <> 0 -> ctx ∈ live_ctx w ->
  let a := eng_init_state ctx (engine_mem w) in
  let st := new_handle (live_state w) in
  nativeStartChunkedRealtimeTranscribeWithState ctx samplesPerChunk language
    translate maxTokens useVad audioContext singleSegment noContext
    nThreads w
  = if a.1 then
      Done true (World (live_ctx w) (live_state w) (eng_state_free st a.2)
                   (engine_log w ++ [CallInitState ctx st; CallStateFree st]))
    else
      Done false (World (live_ctx w) (live_state w) a.2
                    (engine_log w ++ [CallInitState ctx 0])).
Proof.
  intros Hctx Hlive a st.
  unfold nativeStartChunkedRealtimeTranscribeWithState.
  apply Z.eqb_neq in Hctx. rewrite Hctx.
  unfold bind at 1. rewrite whisper_init_state_live by assumption.
  fold a. fold st. destruct a.1; [|reflexivity].
  destruct (new_handle_fresh (live_state w)) as [_ Hst]. fold st in Hst.
  apply Z.eqb_neq in Hst. rewrite Hst.
  unfold bind. rewrite whisper_state_free_live by (cbn; set_solver).
  unfold ret. cbn. unfold st. now rewrite release_new, <- app_assoc.
Qed.

(** *** A handle that is neither null nor allocated *)

Lemma dangling_crashes ctx w :
  ctx <> 0 -> ctx ∉ live_ctx w ->
  (forall audioData language translate maxTokens,
     nativeTranscribe ctx audioData language translate maxTokens w = Crash)
  /\ (forall audioData nThreads,
        nativeDetectLanguageWithState ctx audioData nThreads w = Crash)
  /\ (forall samplesPerChunk language translate maxTokens useVad
        audioContext singleSegment noContext nThreads,
        nativeStartChunkedRealtimeTranscribeWithState ctx samplesPerChunk
          language translate maxTokens useVad audioContext singleSegment
          noContext nThreads w = Crash)
  /\ (forall audioData languageStr translate maxTokens suppressBlank
        suppressNst,
        44 <= Wav.len audioData ->
        fullTranscribe ctx audioData languageStr translate maxTokens
          suppressBlank suppressNst w = Crash)
  /\ freeContext ctx w = Crash
  /\ nativeFreeContext ctx w = Crash.
Proof.
  intros Hctx Hdead. apply Z.eqb_neq in Hctx.
  repeat split; intros.
  - unfold nativeTranscribe, bind, whisper_full.
    now rewrite Hctx, decide_False.
  - unfold nativeDetectLanguageWithState, bind, whisper_init_state.
    now rewrite Hctx, decide_False.
  - unfold nativeStartChunkedRealtimeTranscribeWithState, bind,
      whisper_init_state.
    now rewrite Hctx, decide_False.
  - unfold fullTranscribe, bind, whisper_full. rewrite Hctx.
    assert ((Wav.len audioData <? 44) = false) as -> by now apply Z.ltb_ge.
    now rewrite decide_False.
  - unfold freeContext, whisper_free. rewrite Hctx. cbn [negb].
    now rewrite decide_False.
  - unfold nativeFreeContext, whisper_free. rewrite Hctx. cbn [negb].
    now rewrite decide_False.
Qed.

(** ** The specification, statement by statement *)

(** C1.  For a WAV buffer of length [L >= 44] with [L - 44] even, the
    decoding done inside [fullTranscribe] yields exactly [(L - 44) / 2]
    samples; sample [i] is the little-endian 16-bit integer at bytes
    [44 + 2i] and [44 + 2i + 1] divided by 32768 (the single-precision
    division is exact), so it lies between -1 and 1; and these samples
    are what [fullTranscribe] hands to the engine. *)
Theorem wav_decode_exact (bytes : list byte) :
  44 <= Wav.len bytes ->
  Z.even (Wav.len bytes - 44) = true ->
  Z.of_nat (length (Wav.samples bytes)) = (Wav.len bytes - 44) / 2
  /\ (forall i : nat,
        (i < length (Wav.samples bytes))%nat ->
        exists lo hi : byte,
          bytes !! (44 + 2 * i)%nat = Some lo
          /\ bytes !! (44 + 2 * i + 1)%nat = Some hi
          /\ Float32.denotes (nth i (Wav.samples bytes) S754_nan)
               (Wav.int16_le lo hi # 32768)%Q
          /\ Float32.unit_range (nth i (Wav.samples bytes) S754_nan))
  /\ (forall ctx languageStr translate maxTokens suppressBlank suppressNst w,
        ctx <> 0 -> ctx ∈ live_ctx w ->
        exists r w' p status,
          fullTranscribe ctx bytes languageStr translate maxTokens
            suppressBlank suppressNst w = Done r w'
          /\ engine_log w'
             = engine_log w ++ [CallFull ctx p (Wav.samples bytes) status]).
Proof.
  intros Hlen Heven.
  assert (Hq : Wav.pcmLen bytes = (Wav.len bytes - 44) / 2).
  { unfold Wav.pcmLen, Wav.header_len. apply Z.quot_div_nonneg; lia. }
  assert (Hn : 0 <= Wav.pcmLen bytes).
  { rewrite Hq. apply Z.div_pos; lia. }
  split; [|split].
  - rewrite samples_length, Z2Nat.id by assumption. exact Hq.
  - intros i Hi. rewrite samples_length in Hi.
    assert (Hi' : (44 + 2 * i + 1 < length bytes)%nat).
    { assert (Z.of_nat i < (Wav.len bytes - 44) / 2) by lia.
      assert (2 * ((Wav.len bytes - 44) / 2) <= Wav.len bytes - 44)
        by (apply Z.mul_div_le; lia).
      unfold Wav.len in *. lia. }
    destruct (lookup_lt_is_Some_2 bytes (44 + 2 * i)%nat) as [lo Hlo];
      [lia|].
    destruct (lookup_lt_is_Some_2 bytes (44 + 2 * i + 1)%nat) as [hi Hhi];
      [lia|].
    exists lo, hi. split; [assumption|]. split; [assumption|].
    rewrite samples_nth by assumption.
    unfold Wav.sample, Wav.pcm16.
    rewrite !nth_lookup, Hlo, Hhi. cbn [default].
    apply normalize_exact.
  - intros ctx languageStr translate maxTokens suppressBlank suppressNst w
      Hctx Hlive.
    pose proof (fullTranscribe_run ctx bytes languageStr translate maxTokens
                  suppressBlank suppressNst w Hctx Hlive Hlen) as Hrun.
    cbv zeta in Hrun. rewrite Hrun. do 4 eexists. split; reflexivity.
Qed.

(** C2.  A successful transcribe call returns the engine's segments
    0 .. n-1 in that order, none dropped or merged (an empty text is a
    segment like any other), and its full-text field is the
    concatenation of their texts in that order; this holds for the
    structured binding and for the JSON binding. *)
Theorem transcribe_preserves_segments :
  (forall ctx audioData language translate maxTokens w r w',
     nativeTranscribe ctx audioData language translate maxTokens w
     = Done (Some r) w' ->
     r = result_value (engine_segments ctx (engine_mem w')))
  /\ (forall ctx audioData languageStr translate maxTokens suppressBlank
        suppressNst w s w' p samples,
        fullTranscribe ctx audioData languageStr translate maxTokens
          suppressBlank suppressNst w = Done s w' ->
        engine_log w' = engine_log w ++ [CallFull ctx p samples 0] ->
        s = result_json (engine_segments ctx (engine_mem w')))
  /\ (forall ctx (m : mem),
        length (engine_segments ctx m)
        = Z.to_nat (eng_full_n_segments ctx m)
        /\ forall i : nat,
             (i < Z.to_nat (eng_full_n_segments ctx m))%nat ->
             engine_segments ctx m !! i
             = Some (eng_full_get_segment_text ctx (Z.of_nat i) m,
                     eng_full_get_segment_t0 ctx (Z.of_nat i) m,
                     eng_full_get_segment_t1 ctx (Z.of_nat i) m)).
Proof.
  split; [|split].
  - intros ctx audioData language translate maxTokens w r w' Hrun.
    destruct (Z.eq_dec ctx 0) as [->|Hctx]; [discriminate Hrun|].
    destruct (decide (ctx ∈ live_ctx w)) as [Hlive|Hdead].
    + pose proof (nativeTranscribe_run ctx audioData language translate
                    maxTokens w Hctx Hlive) as Heq.
      cbv zeta in Heq. rewrite Heq in Hrun.
      destruct (_ =? 0); inversion Hrun; subst. reflexivity.
    + destruct (dangling_crashes ctx w Hctx Hdead) as [Hc _].
      rewrite Hc in Hrun. discriminate.
  - intros ctx audioData languageStr translate maxTokens suppressBlank
      suppressNst w s w' p samples Hrun Hlog.
    destruct (Z.eq_dec ctx 0) as [->|Hctx].
    { rewrite fullTranscribe_null in Hrun. inversion Hrun; subst.
      apply (f_equal (@length call)) in Hlog.
      rewrite length_app in Hlog. cbn in Hlog. lia. }
    destruct (Z_lt_le_dec (Wav.len audioData) 44) as [Hshort|Hlen].
    { rewrite fullTranscribe_short in Hrun by assumption.
      inversion Hrun; subst.
      apply (f_equal (@length call)) in Hlog.
      rewrite length_app in Hlog. cbn in Hlog. lia. }
    destruct (decide (ctx ∈ live_ctx w)) as [Hlive|Hdead].
    + pose proof (fullTranscribe_run ctx audioData languageStr translate
                    maxTokens suppressBlank suppressNst w Hctx Hlive Hlen)
        as Heq.
      cbv zeta in Heq. rewrite Heq in Hrun. inversion Hrun; subst.
      cbn [engine_log] in Hlog. apply app_inv_head in Hlog.
      inversion Hlog as [[Hp Hs Hst]]. rewrite Hst. reflexivity.
    + destruct (dangling_crashes ctx w Hctx Hdead) as (_ & _ & _ & Hc & _).
      rewrite Hc in Hrun by assumption. discriminate.
  - intros ctx m. unfold engine_segments. split.
    + now rewrite length_map, length_seq.
    + intros i Hi. rewrite list_lookup_fmap, lookup_seq_lt by assumption.
      reflexivity.
Qed.

(** C8.  At the three call sites (JSON binding, structured binding,
    streaming start) a [maxTokens] of 0 or less leaves the token cap at
    the value of the engine's default parameters, and a [maxTokens]
    above 0 sets the cap to it; the three agree. *)
Theorem max_tokens_interpretation (maxTokens : Z) (languageStr : string)
    (language : option string)
    (translate suppressBlank suppressNst singleSegment noContext : bool)
    (audioContext nThreads : Z) :
  let default := eng_full_default_params WHISPER_SAMPLING_GREEDY in
  let cap := if maxTokens <=? 0 then max_tokens default else maxTokens in
  max_tokens (fullTranscribe_params languageStr translate maxTokens
                suppressBlank suppressNst) = cap
  /\ max_tokens (nativeTranscribe_params language translate maxTokens) = cap
  /\ max_tokens (startChunked_params language translate maxTokens
                   audioContext singleSegment noContext nThreads) = cap.
Proof.
  intros default cap. subst cap default.
  unfold fullTranscribe_params, nativeTranscribe_params, startChunked_params.
  destruct (Z.leb_spec maxTokens 0) as [Hle|Hgt].
  - assert ((0 <? maxTokens) = false) as -> by now apply Z.ltb_ge.
    repeat split.
    + now destruct translate, (negb (String.eqb languageStr "auto")).
    + now destruct language.
    + now destruct language.
  - assert ((0 <? maxTokens) = true) as -> by now apply Z.ltb_lt.
    repeat split.
    + now destruct translate, (negb (String.eqb languageStr "auto")).
    + now destruct language.
    + now destruct language.
Qed.

(** C10.  [freeContext] on the null handle 0 does nothing, in both
    bindings: the world, engine log included, is left as it was, so the
    engine's free routine is not called. *)
Theorem freeContext_null_noop w :
  freeContext 0 w = Done tt w /\ nativeFreeContext 0 w = Done tt w.
Proof. split; reflexivity. Qed.

Lemma states_held_pair ctx (st : Z) (middle : list call) :
  st <> 0 ->
  (forall c, In c middle ->
     match c with
     | CallInitState _ _ | CallStateFree _ => False
     | _ => True
     end) ->
  states_held (CallInitState ctx st :: middle ++ [CallStateFree st]) [] = [].
Proof.
  intros Hst Hmid. cbn [states_held].
  apply Z.eqb_neq in Hst. rewrite Hst. cbn [app].
  induction middle as [|c middle IH].
  - cbn. now rewrite decide_False by tauto.
  - pose proof (Hmid c (or_introl eq_refl)) as Hc.
    assert (Hrest : forall c', In c' middle ->
              match c' with
              | CallInitState _ _ | CallStateFree _ => False
              | _ => True
              end) by (intros c' Hin; apply Hmid; now right).
    destruct c; try contradiction; cbn [app states_held]; now apply IH.
Qed.

(** C7.  [nativeDetectLanguageWithState] releases the state it creates
    on every path that returns: the set of allocated states after the
    call is the set before it, and every state created by the calls it
    made was freed by them.  On a null or allocated context handle the
    call does return. *)
Theorem detectLanguage_releases_state ctx audioData nThreads w :
  match nativeDetectLanguageWithState ctx audioData nThreads w with
  | Crash => ctx <> 0 /\ ctx ∉ live_ctx w
  | Done r w' =>
      live_state w' = live_state w
      /\ live_ctx w' = live_ctx w
      /\ exists calls,
           engine_log w' = engine_log w ++ calls
           /\ states_held calls [] = []
  end.
Proof.
  destruct (Z.eq_dec ctx 0) as [->|Hctx].
  { rewrite nativeDetectLanguageWithState_null.
    repeat split. exists []. now rewrite app_nil_r. }
  destruct (decide (ctx ∈ live_ctx w)) as [Hlive|Hdead].
  2:{ destruct (dangling_crashes ctx w Hctx Hdead) as (_ & Hc & _).
      now rewrite Hc. }
  pose proof (nativeDetectLanguageWithState_run ctx audioData nThreads w
                Hctx Hlive) as Hrun.
  cbv zeta in Hrun. rewrite Hrun. clear Hrun.
  destruct (new_handle_fresh (live_state w)) as [_ Hst].
  destruct (eng_init_state ctx (engine_mem w)).1.
  - destruct (_ =? 0).
    + repeat split. eexists. split; [reflexivity|].
      apply (states_held_pair ctx _ [_; _] Hst).
      intros c [<-|[<-|[]]]; exact I.
    + repeat split. eexists. split; [reflexivity|].
      apply (states_held_pair ctx _ [_] Hst).
      intros c [<-|[]]; exact I.
  - repeat split. eexists. split; reflexivity.
Qed.

(** C9.  The streaming start releases the state it creates before it
    returns, on the path that returns [true] as on the others: the set
    of allocated states after the call is the set before it, and a
    [true] result means the state was created and freed again, so
    nothing is kept for later chunks. *)
Theorem streaming_start_releases_state ctx samplesPerChunk language
    translate maxTokens useVad audioContext singleSegment noContext
    nThreads w :
  match
    nativeStartChunkedRealtimeTranscribeWithState ctx samplesPerChunk
      language translate maxTokens useVad audioContext singleSegment
      noContext nThreads w
  with
  | Crash => ctx <> 0 /\ ctx ∉ live_ctx w
  | Done r w' =>
      live_state w' = live_state w
      /\ live_ctx w' = live_ctx w
      /\ exists calls,
           engine_log w' = engine_log w ++ calls
           /\ states_held calls [] = []
           /\ (r = true ->
               exists st, st <> 0
                 /\ calls = [CallInitState ctx st; CallStateFree st])
  end.
Proof.
  destruct (Z.eq_dec ctx 0) as [->|Hctx].
  { rewrite nativeStartChunked_null.
    repeat split. exists []. rewrite app_nil_r.
    repeat split. discriminate. }
  destruct (decide (ctx ∈ live_ctx w)) as [Hlive|Hdead].
  2:{ destruct (dangling_crashes ctx w Hctx Hdead) as (_ & _ & Hc & _).
      now rewrite Hc. }
  pose proof (nativeStartChunked_run ctx samplesPerChunk language translate
                maxTokens useVad audioContext singleSegment noContext
                nThreads w Hctx Hlive) as Hrun.
  cbv zeta in Hrun. rewrite Hrun. clear Hrun.
  destruct (new_handle_fresh (live_state w)) as [_ Hst].
  destruct (eng_init_state ctx (engine_mem w)).1.
  - repeat split. eexists. split; [reflexivity|]. split.
    + apply (states_held_pair ctx _ [] Hst). intros c [].
    + intros _. eexists. split; [exact Hst | reflexivity].
  - repeat split. eexists. split; [reflexivity|]. split; [reflexivity|].
    discriminate.
Qed.

(** ** Where the code departs from the specification *)

Lemma result_json_not_error (segs : list segment) (msg : string) :
  result_json segs <> err_json msg.
Proof.
  unfold result_json, err_json, quoted, dq.
  rewrite !append_cons. intros H. discriminate H.
Qed.

(** C3 (as amended).  [freeContext] on an allocated, non-null handle
    releases it, once, in both bindings.  Afterwards an operation is
    turned away without touching the engine when it is given the null
    handle (the structured binding then returns null, resp. [false]);
    the bindings keep no closed flag, so the released handle value itself
    passes the null check and is handed to the engine, which is undefined
    behaviour there, as is a second [freeContext] on it. *)
Theorem freed_handle_only_null_rejected (h : Z) w :
  h <> 0 -> h ∈ live_ctx w ->
  exists w',
    freeContext h w = Done tt w'
    /\ nativeFreeContext h w = Done tt w'
    /\ live_ctx w' = live_ctx w ∖ {[h]}
    /\ engine_log w' = engine_log w ++ [CallFree h]
    /\ (forall audioData language translate maxTokens,
          nativeTranscribe 0 audioData language translate maxTokens w'
          = Done None w'
          /\ nativeTranscribe h audioData language translate maxTokens w'
             = Crash)
    /\ (forall audioData nThreads,
          nativeDetectLanguageWithState 0 audioData nThreads w'
          = Done None w'
          /\ nativeDetectLanguageWithState h audioData nThreads w' = Crash)
    /\ (forall samplesPerChunk language translate maxTokens useVad
          audioContext singleSegment noContext nThreads,
          nativeStartChunkedRealtimeTranscribeWithState 0 samplesPerChunk
            language translate maxTokens useVad audioContext singleSegment
            noContext nThreads w' = Done false w'
          /\ nativeStartChunkedRealtimeTranscribeWithState h samplesPerChunk
               language translate maxTokens useVad audioContext
               singleSegment noContext nThreads w' = Crash)
    /\ (forall audioData languageStr translate maxTokens suppressBlank
          suppressNst,
          (exists r,
             fullTranscribe 0 audioData languageStr translate maxTokens
               suppressBlank suppressNst w' = Done r w')
          /\ (44 <= Wav.len audioData ->
              fullTranscribe h audioData languageStr translate maxTokens
                suppressBlank suppressNst w' = Crash))
    /\ freeContext h w' = Crash
    /\ nativeFreeContext h w' = Crash.
Proof.
  intros Hh Hlive.
  set (w' := World (live_ctx w ∖ {[h]}) (live_state w)
               (eng_free h (engine_mem w)) (engine_log w ++ [CallFree h])).
  assert (Hfree : whisper_free h w = Done tt w').
  { unfold whisper_free. now rewrite decide_True. }
  assert (Hdead : h ∉ live_ctx w').
  { cbn. rewrite elem_of_difference, elem_of_singleton. tauto. }
  destruct (dangling_crashes h w' Hh Hdead) as (Ht & Hd & Hs & Hj & Hf & Hn).
  exists w'. pose proof Hh as Hneq. apply Z.eqb_neq in Hneq.
  split. { unfold freeContext. now rewrite Hneq. }
  split. { unfold nativeFreeContext. now rewrite Hneq. }
  split; [reflexivity|]. split; [reflexivity|].
  split. { intros. split; [reflexivity | apply Ht]. }
  split. { intros. split; [reflexivity | apply Hd]. }
  split. { intros. split; [reflexivity | apply Hs]. }
  split. { intros. split; [eexists; reflexivity | apply Hj]. }
  split; assumption.
Qed.

(** C4 (as amended).  On a null or allocated handle no operation of the
    structured binding crashes, and each returns its one failure value
    (null, null, [false]) exactly when the handle is null or an engine
    call of the run reported failure; a success is a map (resp. [true]),
    so the host can tell failure from success, but the failure value
    carries neither cause nor code.  In the JSON binding, on a non-null
    allocated handle, a buffer shorter than 44 bytes gives
    [{"error":"Invalid WAV"}], a failed engine run gives
    [{"error":"Transformation failed"}], and a run with status 0 gives
    the result document. *)
Theorem failure_returns_sentinel ctx w :
  ctx = 0 \/ ctx ∈ live_ctx w ->
  (forall audioData language translate maxTokens,
     exists r w' calls,
       nativeTranscribe ctx audioData language translate maxTokens w
       = Done r w'
       /\ engine_log w' = engine_log w ++ calls
       /\ (r = None <-> ctx = 0 \/ existsb call_failed calls = true)
       /\ (r <> None -> exists m, r = Some (JMap m)))
  /\ (forall audioData nThreads,
        exists r w' calls,
          nativeDetectLanguageWithState ctx audioData nThreads w = Done r w'
          /\ engine_log w' = engine_log w ++ calls
          /\ (r = None <-> ctx = 0 \/ existsb call_failed calls = true)
          /\ (r <> None -> exists m, r = Some (JMap m)))
  /\ (forall samplesPerChunk language translate maxTokens useVad
        audioContext singleSegment noContext nThreads,
        exists r w' calls,
          nativeStartChunkedRealtimeTranscribeWithState ctx samplesPerChunk
            language translate maxTokens useVad audioContext singleSegment
            noContext nThreads w = Done r w'
          /\ engine_log w' = engine_log w ++ calls
          /\ (r = false <-> ctx = 0 \/ existsb call_failed calls = true))
  /\ (forall audioData languageStr translate maxTokens suppressBlank
        suppressNst,
        ctx <> 0 ->
        exists r w' calls,
          fullTranscribe ctx audioData languageStr translate maxTokens
            suppressBlank suppressNst w = Done r w'
          /\ engine_log w' = engine_log w ++ calls
          /\ (Wav.len audioData < 44 ->
              r = err_json "Invalid WAV" /\ calls = [])
          /\ (existsb call_failed calls = true ->
              r = err_json "Transformation failed")
          /\ (44 <= Wav.len audioData ->
              existsb call_failed calls = false ->
              r = result_json (engine_segments ctx (engine_mem w')))).
Proof.
  intros Hok.
  destruct (Z.eq_dec ctx 0) as [->|Hctx].
  { split; [|split; [|split]]; intros.
    - exists None, w, []. rewrite app_nil_r.
      repeat split; auto. congruence.
    - exists None, w, []. rewrite app_nil_r.
      repeat split; auto. congruence.
    - exists false, w, []. rewrite app_nil_r. repeat split; auto.
    - congruence. }
  destruct Hok as [?|Hlive]; [contradiction|].
  split; [|split; [|split]].
  - intros audioData language translate maxTokens.
    pose proof (nativeTranscribe_run ctx audioData language translate
                  maxTokens w Hctx Hlive) as Hrun.
    cbv zeta in Hrun. rewrite Hrun. clear Hrun.
    do 3 eexists. split; [reflexivity|]. split; [reflexivity|].
    cbn [existsb call_failed]. rewrite orb_false_r.
    destruct (_ =? 0); cbn [negb].
    + split; [split; [discriminate | intros [?|?]; congruence]|].
      intros _. unfold result_value. eauto.
    + split; [split; auto | congruence].
  - intros audioData nThreads.
    pose proof (nativeDetectLanguageWithState_run ctx audioData nThreads w
                  Hctx Hlive) as Hrun.
    cbv zeta in Hrun. rewrite Hrun. clear Hrun.
    destruct (new_handle_fresh (live_state w)) as [_ Hst].
    apply Z.eqb_neq in Hst.
    destruct (eng_init_state ctx (engine_mem w)).1.
    + destruct ((eng_pcm_to_mel_with_state _ _ _ _ _).1 =? 0) eqn:Hmel.
      * do 3 eexists. split; [reflexivity|]. split; [reflexivity|].
        cbn [existsb call_failed]. rewrite Hst, Hmel. cbn [negb orb].
        rewrite !orb_false_r.
        destruct (_ <? 0); cbn [orb].
        { split; [split; auto | congruence]. }
        destruct (eng_lang_str _) as [code|]; cbn.
        { split; [split; [discriminate | intros [?|?]; congruence]|eauto]. }
        { split; [split; auto | congruence]. }
      * do 3 eexists. split; [reflexivity|]. split; [reflexivity|].
        cbn [existsb call_failed]. rewrite Hst, Hmel. cbn [negb orb].
        split; [split; auto | congruence].
    + do 3 eexists. split; [reflexivity|]. split; [reflexivity|].
      cbn. split; [split; auto | congruence].
  - intros samplesPerChunk language translate maxTokens useVad audioContext
      singleSegment noContext nThreads.
    pose proof (nativeStartChunked_run ctx samplesPerChunk language
                  translate maxTokens useVad audioContext singleSegment
                  noContext nThreads w Hctx Hlive) as Hrun.
    cbv zeta in Hrun. rewrite Hrun. clear Hrun.
    destruct (new_handle_fresh (live_state w)) as [_ Hst].
    apply Z.eqb_neq in Hst.
    destruct (eng_init_state ctx (engine_mem w)).1.
    + do 3 eexists. split; [reflexivity|]. split; [reflexivity|].
      cbn [existsb call_failed]. rewrite Hst. cbn [orb].
      split; [discriminate | intros [?|?]; congruence].
    + do 3 eexists. split; [reflexivity|]. split; [reflexivity|].
      cbn. split; auto.
  - intros audioData languageStr translate maxTokens suppressBlank
      suppressNst _.
    destruct (Z_lt_le_dec (Wav.len audioData) 44) as [Hshort|Hlen].
    + rewrite fullTranscribe_short by assumption.
      exists (err_json "Invalid WAV"), w, []. rewrite app_nil_r.
      repeat split; auto; [discriminate | lia].
    + pose proof (fullTranscribe_run ctx audioData languageStr translate
                    maxTokens suppressBlank suppressNst w Hctx Hlive Hlen)
        as Hrun.
      cbv zeta in Hrun. rewrite Hrun. clear Hrun.
      do 3 eexists. split; [reflexivity|]. split; [reflexivity|].
      cbn [existsb call_failed engine_mem]. rewrite orb_false_r.
      destruct (_ =? 0); cbn [negb].
      * split; [lia|]. split; [discriminate | reflexivity].
      * split; [lia|]. split; [reflexivity | discriminate].
Qed.

(** C5 (as amended).  On a non-null handle a buffer shorter than 44
    bytes is refused with [{"error":"Invalid WAV"}] before any engine
    call.  That is the only check: a buffer of 44 bytes or more is never
    refused by the decoder; a trailing odd byte is ignored and the engine
    is run on the [(L - 44) / 2] samples (rounded down), also when there
    are none. *)
Theorem short_buffer_rejected_first ctx audioData languageStr translate
    maxTokens suppressBlank suppressNst w :
  ctx <> 0 ->
  (Wav.len audioData < 44 ->
   fullTranscribe ctx audioData languageStr translate maxTokens
     suppressBlank suppressNst w = Done (err_json "Invalid WAV") w)
  /\ (44 <= Wav.len audioData -> ctx ∈ live_ctx w ->
      exists r w' p status,
        fullTranscribe ctx audioData languageStr translate maxTokens
          suppressBlank suppressNst w = Done r w'
        /\ r <> err_json "Invalid WAV"
        /\ engine_log w'
           = engine_log w ++ [CallFull ctx p (Wav.samples audioData) status]
        /\ Z.of_nat (length (Wav.samples audioData))
           = (Wav.len audioData - 44) / 2).
Proof.
  intros Hctx. split.
  - intros Hshort. now apply fullTranscribe_short.
  - intros Hlen Hlive.
    pose proof (fullTranscribe_run ctx audioData languageStr translate
                  maxTokens suppressBlank suppressNst w Hctx Hlive Hlen)
      as Hrun.
    cbv zeta in Hrun. rewrite Hrun. clear Hrun.
    do 4 eexists. split; [reflexivity|]. split; [|split; [reflexivity|]].
    + destruct (_ =? 0); [apply result_json_not_error | discriminate].
    + rewrite samples_length. unfold Wav.pcmLen, Wav.header_len.
      rewrite Z.quot_div_nonneg by lia.
      apply Z2Nat.id. apply Z.div_pos; lia.
Qed.

(** What the JSON binding stores as the language: the default for
    "auto", the engine's id for any other tag. *)
Lemma fullTranscribe_params_language (tag : string) translate maxTokens
    suppressBlank suppressNst :
  language (fullTranscribe_params tag translate maxTokens suppressBlank
              suppressNst)
  = if String.eqb tag "auto"
    then language (eng_full_default_params WHISPER_SAMPLING_GREEDY)
    else LangId (eng_lang_id tag).
Proof.
  unfold fullTranscribe_params.
  now destruct (0 <? maxTokens), translate, (String.eqb tag "auto").
Qed.

(** C6 (as amended).  The structured binding and the streaming start do
    not check the language tag and never fail because of it: the
    caller's tag is stored in the parameters as it is ("auto" included),
    and "auto" when the tag is null; the engine is run with these
    parameters and the result depends on the engine's status alone.  The
    JSON binding keeps the default language for "auto". *)
Theorem language_tag_not_validated ctx w (tag : string) :
  ctx <> 0 -> ctx ∈ live_ctx w ->
  (forall audioData translate maxTokens,
     exists w' p status,
       nativeTranscribe ctx audioData (Some tag) translate maxTokens w
       = Done (if status =? 0
               then Some (result_value (engine_segments ctx (engine_mem w')))
               else None) w'
       /\ engine_log w' = engine_log w ++ [CallFull ctx p audioData status]
       /\ language p = LangTag tag)
  /\ (forall translate maxTokens audioContext singleSegment noContext
        nThreads,
        language (startChunked_params (Some tag) translate maxTokens
                    audioContext singleSegment noContext nThreads)
        = LangTag tag
        /\ language (startChunked_params None translate maxTokens
                       audioContext singleSegment noContext nThreads)
           = LangTag "auto"
        /\ language (nativeTranscribe_params None translate maxTokens)
           = LangTag "auto")
  /\ (forall translate maxTokens suppressBlank suppressNst,
        language (fullTranscribe_params "auto" translate maxTokens
                    suppressBlank suppressNst)
        = language (eng_full_default_params WHISPER_SAMPLING_GREEDY)).
Proof.
  intros Hctx Hlive. split; [|split].
  - intros audioData translate maxTokens.
    pose proof (nativeTranscribe_run ctx audioData (Some tag) translate
                  maxTokens w Hctx Hlive) as Hrun.
    cbv zeta in Hrun. rewrite Hrun. clear Hrun.
    set (p := nativeTranscribe_params (Some tag) translate maxTokens).
    set (e := eng_full ctx p audioData (engine_mem w)).
    exists (World (live_ctx w) (live_state w) e.2
              (engine_log w ++ [CallFull ctx p audioData e.1])), p, e.1.
    split; [reflexivity|]. split; [reflexivity|].
    unfold p, nativeTranscribe_params. now destruct (0 <? maxTokens).
  - intros. unfold startChunked_params, nativeTranscribe_params.
    now destruct (0 <? maxTokens).
  - intros. now rewrite fullTranscribe_params_language.
Qed.

End BridgeFacts.

(** * The bindings on the small engine *)

Example run_fullTranscribe :
  result_of (fullTranscribe 1 (wav_of ["001"; "128"]%byte) "en" false 0
               false false (toy_world 0 true 0 toy_three))
  = Some (result_json toy_three).
Proof. vm_compute. reflexivity. Qed.

Example run_samples :
  Wav.samples (wav_of ["001"; "128"; "255"; "127"]%byte)
  = [S754_finite true 16776704 (-24); S754_finite false 16776704 (-24)].
Proof. vm_compute. reflexivity. Qed.

Example run_detect :
  result_of (nativeDetectLanguageWithState 1 [] 4 (toy_world 0 true 7 []))
  = Some None.
Proof. vm_compute. reflexivity. Qed.

Lemma toy_handle_live status alloc lang segs :
  1 ∈ live_ctx (toy_world status alloc lang segs).
Proof. apply elem_of_singleton_2. reflexivity. Defined.

(** ** C1 *)

Lemma wav_decode_exact_witness :
  44 <= Wav.len (wav_of ["001"; "128"; "255"; "127"]%byte)
  /\ Z.even (Wav.len (wav_of ["001"; "128"; "255"; "127"]%byte) - 44) = true
  /\ Z.of_nat (length (Wav.samples (wav_of ["001"; "128"; "255"; "127"]%byte)))
     = (Wav.len (wav_of ["001"; "128"; "255"; "127"]%byte) - 44) / 2
  /\ exists lo hi : byte,
       wav_of ["001"; "128"; "255"; "127"]%byte !! 44%nat = Some lo
       /\ wav_of ["001"; "128"; "255"; "127"]%byte !! 45%nat = Some hi
       /\ Float32.denotes
            (nth 0 (Wav.samples (wav_of ["001"; "128"; "255"; "127"]%byte))
               S754_nan)
            (Wav.int16_le lo hi # 32768)%Q.
Proof.
  assert (H1 : 44 <= Wav.len (wav_of ["001"; "128"; "255"; "127"]%byte))
    by (vm_compute; discriminate).
  assert (H2 : Z.even (Wav.len (wav_of ["001"; "128"; "255"; "127"]%byte) - 44)
               = true) by reflexivity.
  destruct (@wav_decode_exact toy_mem toy_engine _ H1 H2) as (Hn & Hs & _).
  split; [exact H1|]. split; [exact H2|]. split; [exact Hn|].
  destruct (Hs 0%nat) as (lo & hi & Hlo & Hhi & Hd & _).
  { vm_compute. lia. }
  exists lo, hi. auto.
Defined.

(** ** C2 *)

Lemma transcribe_preserves_segments_witness :
  nativeTranscribe 1 [] None false 0 (toy_world 0 true 0 toy_three)
  = Done (Some (result_value toy_three))
      (logged (CallFull 1 (nativeTranscribe_params None false 0) [] 0)
         (toy_world 0 true 0 toy_three))
  /\ result_value toy_three
     = result_value
         (engine_segments 1 (ToyMem 0 true 0 toy_three))
  /\ result_json toy_three
     = result_json (engine_segments 1 (ToyMem 0 true 0 toy_three)).
Proof.
  assert (H1 : nativeTranscribe 1 [] None false 0
                 (toy_world 0 true 0 toy_three)
               = Done (Some (result_value toy_three))
                   (logged
                      (CallFull 1 (nativeTranscribe_params None false 0) [] 0)
                      (toy_world 0 true 0 toy_three)))
    by (vm_compute; reflexivity).
  assert (H2 : fullTranscribe 1 (wav_of []) "en" false 0 false false
                 (toy_world 0 true 0 toy_three)
               = Done (result_json toy_three)
                   (logged
                      (CallFull 1
                         (fullTranscribe_params "en" false 0 false false)
                         [] 0)
                      (toy_world 0 true 0 toy_three)))
    by (vm_compute; reflexivity).
  destruct (@transcribe_preserves_segments toy_mem toy_engine)
    as (Hmap & Hjson & _).
  split; [exact H1|]. split.
  - exact (Hmap _ _ _ _ _ _ _ _ H1).
  - exact (Hjson _ _ _ _ _ _ _ _ _ _ _ _ H2 eq_refl).
Defined.

(** ** C3 *)

(** After [nativeFreeContext] on the allocated handle 1, a transcribe
    call on the same handle is not answered with the invalid-handle
    value: the handle passes the null check and the released context is
    handed to the engine. *)
Lemma freed_handle_reaches_engine :
  exists w1,
    nativeFreeContext 1 (toy_world 0 true 0 toy_three) = Done tt w1
    /\ nativeTranscribe 1 [] (Some "en") false 0 w1 = Crash
    /\ ~ (exists w2,
            nativeTranscribe 1 [] (Some "en") false 0 w1 = Done None w2).
Proof.
  eexists. split; [vm_compute; reflexivity|].
  split.
  - vm_compute. reflexivity.
  - intros [w2 Hw2]. vm_compute in Hw2. discriminate Hw2.
Qed.

Lemma freed_handle_only_null_rejected_witness :
  1 <> 0
  /\ 1 ∈ live_ctx (toy_world 0 true 0 toy_three)
  /\ exists w',
       nativeFreeContext 1 (toy_world 0 true 0 toy_three) = Done tt w'
       /\ engine_log w' = [CallFree 1]
       /\ nativeTranscribe 0 [] None false 0 w' = Done None w'
       /\ nativeTranscribe 1 [] None false 0 w' = Crash.
Proof.
  assert (H1 : 1 <> 0) by lia.
  pose proof (toy_handle_live 0 true 0 toy_three) as H2.
  destruct (@freed_handle_only_null_rejected toy_mem toy_engine 1 _ H1 H2)
    as (w' & _ & Hfree & _ & Hlog & Ht & _).
  split; [exact H1|]. split; [exact H2|].
  exists w'. split; [exact Hfree|]. split; [exact Hlog|].
  destruct (Ht [] None false 0) as [Hnull Hdang]. split; assumption.
Defined.

(** ** C4 *)

(** A transcribe call on the null handle and one whose engine run fails
    with status 7 return the same value, null: nothing computed from the
    returned value can tell an invalid handle from a failed
    transcription, let alone recover the status.  The JSON binding
    answers the null handle with an empty object, which is no error
    object whatever the message. *)
Lemma failure_cause_not_reported :
  result_of (fullTranscribe 0 [] "en" false 0 false false
               (toy_world 7 true 0 []))
  = Some "{}"
  /\ (forall msg, "{}" <> err_json msg)
  /\ result_of (nativeTranscribe 0 [] None false 0 (toy_world 7 true 0 []))
     = Some None
  /\ result_of (nativeTranscribe 1 [] None false 0 (toy_world 7 true 0 []))
     = Some None
  /\ ~ (exists classify : option jobject -> failure,
          classify
            (result_of
               (nativeTranscribe 0 [] None false 0 (toy_world 7 true 0 [])))
          = InvalidHandle
          /\ classify
               (result_of
                  (nativeTranscribe 1 [] None false 0
                     (toy_world 7 true 0 [])))
             = TranscriptionFailed 7).
Proof.
  assert (H0 : result_of
                 (nativeTranscribe 0 [] None false 0 (toy_world 7 true 0 []))
               = Some None) by reflexivity.
  assert (H1 : result_of
                 (nativeTranscribe 1 [] None false 0 (toy_world 7 true 0 []))
               = Some None) by (vm_compute; reflexivity).
  split; [reflexivity|].
  split; [intros msg H; vm_compute in H; discriminate H|].
  split; [exact H0|]. split; [exact H1|].
  intros (classify & Ha & Hb). rewrite H0 in Ha. rewrite H1 in Hb.
  rewrite Ha in Hb. discriminate Hb.
Qed.

Lemma failure_returns_sentinel_witness :
  (1 = 0 \/ 1 ∈ live_ctx (toy_world 7 true 0 []))
  /\ (exists r w' calls,
        nativeTranscribe 1 [] None false 0 (toy_world 7 true 0 [])
        = Done r w'
        /\ engine_log w' = engine_log (toy_world 7 true 0 []) ++ calls
        /\ (r = None <-> 1 = 0 \/ existsb call_failed calls = true)
        /\ (r <> None -> exists m, r = Some (JMap m)))
  /\ (exists r w' calls,
        fullTranscribe 1 [] "en" false 0 false false (toy_world 7 true 0 [])
        = Done r w'
        /\ engine_log w' = engine_log (toy_world 7 true 0 []) ++ calls
        /\ (Wav.len [] < 44 -> r = err_json "Invalid WAV" /\ calls = [])
        /\ (existsb call_failed calls = true ->
            r = err_json "Transformation failed")
        /\ (44 <= Wav.len [] ->
            existsb call_failed calls = false ->
            r = result_json (engine_segments 1 (engine_mem w')))).
Proof.
  assert (H : 1 = 0 \/ 1 ∈ live_ctx (toy_world 7 true 0 []))
    by (right; apply toy_handle_live).
  destruct (@failure_returns_sentinel toy_mem toy_engine 1 _ H)
    as (Ht & _ & _ & Hj).
  split; [exact H|]. split.
  - exact (Ht [] None false 0).
  - apply (Hj [] "en" false 0 false false). lia.
Defined.

(** ** C5 *)

(** A buffer of 45 bytes has one byte after the header, an odd length,
    and holds no sample.  [fullTranscribe] does not refuse it: the engine
    is run on zero samples and its result is returned. *)
Lemma odd_and_empty_payload_runs_engine :
  Wav.len (wav_of ["001"]%byte) = 45
  /\ Wav.samples (wav_of ["001"]%byte) = []
  /\ fullTranscribe 1 (wav_of ["001"]%byte) "en" false 0 false false
       (toy_world 0 true 0 toy_three)
     = Done (result_json toy_three)
         (logged
            (CallFull 1 (fullTranscribe_params "en" false 0 false false) [] 0)
            (toy_world 0 true 0 toy_three))
  /\ result_json toy_three <> err_json "Invalid WAV".
Proof.
  split; [reflexivity|]. split; [reflexivity|].
  split; [vm_compute; reflexivity|].
  vm_compute. discriminate.
Qed.

Lemma short_buffer_rejected_first_witness :
  1 <> 0
  /\ Wav.len (repeat "000"%byte 43) < 44
  /\ fullTranscribe 1 (repeat "000"%byte 43) "en" false 0 false false
       (toy_world 0 true 0 toy_three)
     = Done (err_json "Invalid WAV") (toy_world 0 true 0 toy_three)
  /\ 44 <= Wav.len (wav_of ["001"]%byte)
  /\ 1 ∈ live_ctx (toy_world 0 true 0 toy_three)
  /\ exists r w' p status,
       fullTranscribe 1 (wav_of ["001"]%byte) "en" false 0 false false
         (toy_world 0 true 0 toy_three) = Done r w'
       /\ r <> err_json "Invalid WAV"
       /\ engine_log w'
          = engine_log (toy_world 0 true 0 toy_three)
            ++ [CallFull 1 p (Wav.samples (wav_of ["001"]%byte)) status]
       /\ Z.of_nat (length (Wav.samples (wav_of ["001"]%byte)))
          = (Wav.len (wav_of ["001"]%byte) - 44) / 2.
Proof.
  assert (H0 : 1 <> 0) by lia.
  assert (H1 : Wav.len (repeat "000"%byte 43) < 44) by reflexivity.
  assert (H2 : 44 <= Wav.len (wav_of ["001"]%byte))
    by (vm_compute; discriminate).
  pose proof (toy_handle_live 0 true 0 toy_three) as H3.
  split; [exact H0|]. split; [exact H1|]. split.
  { exact (proj1 (@short_buffer_rejected_first toy_mem toy_engine 1
                    (repeat "000"%byte 43) "en" false 0 false false
                    (toy_world 0 true 0 toy_three) H0) H1). }
  split; [exact H2|]. split; [exact H3|].
  exact (proj2 (@short_buffer_rejected_first toy_mem toy_engine 1
                  (wav_of ["001"]%byte) "en" false 0 false false
                  (toy_world 0 true 0 toy_three) H0) H2 H3).
Defined.

(** ** C6 *)

(** The tag "zz" is not in the engine's language table, and "auto" it is
    not.  The structured binding hands it to the engine as it is and the
    call succeeds. *)
Lemma unsupported_tag_accepted :
  eng_lang_id "zz" = -1
  /\ nativeTranscribe 1 [] (Some "zz") false 0 (toy_world 0 true 0 toy_three)
     = Done (Some (result_value toy_three))
         (logged
            (CallFull 1
               (set_language (LangTag "zz")
                  (nativeTranscribe_params None false 0)) [] 0)
            (toy_world 0 true 0 toy_three)).
Proof.
  split; [reflexivity|]. vm_compute. reflexivity.
Qed.

Lemma language_tag_not_validated_witness :
  1 <> 0
  /\ 1 ∈ live_ctx (toy_world 0 true 0 toy_three)
  /\ (exists w' p status,
        nativeTranscribe 1 [] (Some "zz") false 0
          (toy_world 0 true 0 toy_three)
        = Done (if status =? 0
                then Some (result_value (engine_segments 1 (engine_mem w')))
                else None) w'
        /\ engine_log w'
           = engine_log (toy_world 0 true 0 toy_three)
             ++ [CallFull 1 p [] status]
        /\ language p = LangTag "zz").
Proof.
  assert (H0 : 1 <> 0) by lia.
  pose proof (toy_handle_live 0 true 0 toy_three) as H1.
  destruct (@language_tag_not_validated toy_mem toy_engine 1 _ "zz" H0 H1)
    as (Ht & _).
  split; [exact H0|]. split; [exact H1|].
  exact (Ht [] false 0).
Defined.

(** * Further properties of the bindings *)

(** ** The decoder, seen from the payload *)

Lemma pcmLen_payload (hdr payload : list byte) :
  length hdr = 44%nat ->
  Z.to_nat (Wav.pcmLen (hdr ++ payload)) = (length payload / 2)%nat.
Proof.
  intros Hh. unfold Wav.pcmLen, Wav.len, Wav.header_len.
  rewrite length_app, Hh.
  replace (Z.of_nat (44 + length payload) - 44)
    with (Z.of_nat (length payload)) by lia.
  rewrite Z.quot_div_nonneg by lia.
  change 2 with (Z.of_nat 2). rewrite <- Nat2Z.inj_div. apply Nat2Z.id.
Qed.

Lemma pcm16_payload (hdr payload : list byte) (i : nat) :
  length hdr = 44%nat ->
  Wav.pcm16 (hdr ++ payload) i
  = Wav.int16_le (nth (2 * i) payload "000"%byte)
                 (nth (2 * i + 1) payload "000"%byte).
Proof.
  intros Hh. unfold Wav.pcm16.
  rewrite !app_nth2 by lia. rewrite Hh.
  f_equal; f_equal; lia.
Qed.

(** The samples of a buffer are a function of the bytes after the 44th
    alone. *)
Lemma samples_payload (hdr payload : list byte) :
  length hdr = 44%nat ->
  Wav.samples (hdr ++ payload)
  = map (fun i : nat =>
           Wav.normalize
             (Wav.int16_le (nth (2 * i) payload "000"%byte)
                           (nth (2 * i + 1) payload "000"%byte)))
        (seq 0 (length payload / 2)).
Proof.
  intros Hh. unfold Wav.samples. rewrite pcmLen_payload by assumption.
  apply map_ext. intros i. unfold Wav.sample.
  now rewrite pcm16_payload.
Qed.

(** A buffer of 44 bytes or more is a header followed by a payload. *)
Lemma split_header (bytes : list byte) :
  44 <= Wav.len bytes ->
  exists hdr payload,
    bytes = hdr ++ payload /\ length hdr = 44%nat
    /\ Z.of_nat (length payload) = Wav.len bytes - 44.
Proof.
  intros Hlen. unfold Wav.len in *.
  exists (take 44 bytes), (drop 44 bytes).
  split; [now rewrite take_drop|].
  split; [rewrite length_take; lia | rewrite length_drop; lia].
Qed.

Lemma even_payload (payload : list byte) :
  Z.even (Z.of_nat (length payload)) = true ->
  length payload = (2 * (length payload / 2))%nat.
Proof.
  intros He. apply Z.even_spec in He as [k Hk].
  assert (length payload = (2 * Z.to_nat k)%nat) as -> by lia.
  now rewrite Nat.mul_comm, Nat.div_mul, Nat.mul_comm by lia.
Qed.

(** [fullTranscribe] looks at the buffer through the length test and
    the samples only. *)
Lemma fullTranscribe_buffer {mem : Type} {engine_impl : Whisper mem}
    (a b : list byte) ctx languageStr translate maxTokens suppressBlank
    suppressNst (w : @world mem) :
  (Wav.len a <? 44) = (Wav.len b <? 44) ->
  Wav.samples a = Wav.samples b ->
  fullTranscribe ctx a languageStr translate maxTokens suppressBlank
    suppressNst w
  = fullTranscribe ctx b languageStr translate maxTokens suppressBlank
      suppressNst w.
Proof.
  intros Hl Hs. unfold fullTranscribe. now rewrite Hl, Hs.
Qed.

Lemma byte_val_inj (a b : byte) : Wav.byte_val a = Wav.byte_val b -> a = b.
Proof.
  unfold Wav.byte_val. intros H. apply N2Z.inj in H.
  pose proof (Byte.of_to_N a) as Ha. pose proof (Byte.of_to_N b) as Hb.
  rewrite H in Ha. congruence.
Qed.

Lemma byte_val_bound (b : byte) : 0 <= Wav.byte_val b < 256.
Proof.
  unfold Wav.byte_val. pose proof (Byte.to_N_bounded b). lia.
Qed.

Lemma int16_le_bound (lo hi : byte) : -32768 <= Wav.int16_le lo hi <= 32767.
Proof.
  rewrite int16_le_value. unfold Wav.int16_value.
  pose proof (byte_val_bound lo). pose proof (byte_val_bound hi).
  destruct (Z.leb_spec 128 (Wav.byte_val hi)); lia.
Qed.

Lemma int16_le_inj (a b c d : byte) :
  Wav.int16_le a b = Wav.int16_le c d -> a = c /\ b = d.
Proof.
  rewrite !int16_le_value. unfold Wav.int16_value.
  pose proof (byte_val_bound a). pose proof (byte_val_bound b).
  pose proof (byte_val_bound c). pose proof (byte_val_bound d).
  intros Heq.
  destruct (Z.leb_spec 128 (Wav.byte_val b)),
           (Z.leb_spec 128 (Wav.byte_val d));
    split; apply byte_val_inj; lia.
Qed.

(** Two byte pairs that decode to the same float are the same pair. *)
Lemma normalize_inj (a b c d : byte) :
  Wav.normalize (Wav.int16_le a b) = Wav.normalize (Wav.int16_le c d) ->
  a = c /\ b = d.
Proof.
  intros H. apply int16_le_inj.
  destruct (normalize_exact a b) as [(q1 & Hq1 & He1) _].
  destruct (normalize_exact c d) as [(q2 & Hq2 & He2) _].
  rewrite H, Hq2 in Hq1. inversion Hq1; subst q2.
  rewrite He2 in He1. unfold Qeq in He1. cbn in He1. lia.
Qed.

Section DecoderFacts.

Context {mem : Type} {engine_impl : Whisper mem}.

Implicit Types (w : @world mem) (ctx : Z).

(** X1.  The 44 header bytes are skipped, never read: two buffers with
    the same bytes after the header decode to the same samples, and
    [fullTranscribe] behaves the same on both, whatever the headers
    hold. *)
Theorem header_never_inspected (h1 h2 payload : list byte) :
  length h1 = 44%nat -> length h2 = 44%nat ->
  Wav.samples (h1 ++ payload) = Wav.samples (h2 ++ payload)
  /\ forall ctx languageStr translate maxTokens suppressBlank suppressNst w,
       fullTranscribe ctx (h1 ++ payload) languageStr translate maxTokens
         suppressBlank suppressNst w
       = fullTranscribe ctx (h2 ++ payload) languageStr translate maxTokens
           suppressBlank suppressNst w.
Proof.
  intros H1 H2.
  assert (Hs : Wav.samples (h1 ++ payload) = Wav.samples (h2 ++ payload))
    by now rewrite !samples_payload.
  split; [exact Hs|]. intros.
  apply fullTranscribe_buffer; [|exact Hs].
  unfold Wav.len. now rewrite !length_app, H1, H2.
Qed.

(** X2.  A byte left over after the last whole sample is dropped: adding
    one byte to a buffer whose payload has even length changes neither
    the samples nor the behaviour of [fullTranscribe]. *)
Theorem trailing_byte_ignored (bytes : list byte) (b : byte) :
  44 <= Wav.len bytes ->
  Z.even (Wav.len bytes - 44) = true ->
  Wav.samples (bytes ++ [b]) = Wav.samples bytes
  /\ forall ctx languageStr translate maxTokens suppressBlank suppressNst w,
       fullTranscribe ctx (bytes ++ [b]) languageStr translate maxTokens
         suppressBlank suppressNst w
       = fullTranscribe ctx bytes languageStr translate maxTokens
           suppressBlank suppressNst w.
Proof.
  intros Hlen Heven.
  destruct (split_header bytes Hlen) as (hdr & payload & -> & Hh & Hp).
  rewrite <- Hp in Heven. apply even_payload in Heven.
  assert (Hs : Wav.samples ((hdr ++ payload) ++ [b])
               = Wav.samples (hdr ++ payload)).
  { rewrite <- app_assoc, !samples_payload by assumption.
    assert (Hn : (length (payload ++ [b]) / 2 = length payload / 2)%nat).
    { rewrite length_app. cbn [length]. rewrite Heven at 1.
      rewrite Nat.mul_comm, Nat.div_add_l by lia. cbn. lia. }
    rewrite Hn. apply map_ext_in. intros i Hi. apply in_seq in Hi.
    rewrite !app_nth1 by lia. reflexivity. }
  split; [exact Hs|]. intros.
  apply fullTranscribe_buffer; [|exact Hs].
  assert ((Wav.len (hdr ++ payload) <? 44) = false) as ->
    by now apply Z.ltb_ge.
  apply Z.ltb_ge. unfold Wav.len in *. rewrite length_app. cbn [length]. lia.
Qed.

(** X3.  Decoding goes sample by sample: two more bytes at the end of a
    buffer with an even payload add one sample at the end, the value of
    that pair, and leave the earlier samples as they were. *)
Theorem samples_append_pair (bytes : list byte) (lo hi : byte) :
  44 <= Wav.len bytes ->
  Z.even (Wav.len bytes - 44) = true ->
  Wav.samples (bytes ++ [lo; hi])
  = Wav.samples bytes ++ [Wav.normalize (Wav.int16_le lo hi)].
Proof.
  intros Hlen Heven.
  destruct (split_header bytes Hlen) as (hdr & payload & -> & Hh & Hp).
  rewrite <- Hp in Heven. apply even_payload in Heven.
  rewrite <- app_assoc, !samples_payload by assumption.
  assert (Hn : (length (payload ++ [lo; hi]) / 2
                = Datatypes.S (length payload / 2))%nat).
  { rewrite length_app. cbn [length]. rewrite Heven at 1.
    replace (2 * (length payload / 2) + 2)%nat
      with ((1 + length payload / 2) * 2)%nat by lia.
    now rewrite Nat.div_mul by lia. }
  rewrite Hn, seq_S, map_app. cbn [map Nat.add]. f_equal.
  - apply map_ext_in. intros i Hi. apply in_seq in Hi.
    rewrite !app_nth1 by lia. reflexivity.
  - rewrite !app_nth2 by lia.
    replace (2 * (length payload / 2) - length payload)%nat with 0%nat
      by lia.
    replace (2 * (length payload / 2) + 1 - length payload)%nat with 1%nat
      by lia.
    reflexivity.
Qed.

(** X4.  Decoding loses nothing of a payload of whole samples: two
    buffers with even payloads that decode to the same samples have the
    same payload. *)
Theorem samples_injective (h1 h2 p1 p2 : list byte) :
  length h1 = 44%nat -> length h2 = 44%nat ->
  Nat.even (length p1) = true -> Nat.even (length p2) = true ->
  Wav.samples (h1 ++ p1) = Wav.samples (h2 ++ p2) ->
  p1 = p2.
Proof.
  intros H1 H2 E1 E2 Hs.
  rewrite !samples_payload in Hs by assumption.
  apply Nat.even_spec in E1 as [k1 Hk1], E2 as [k2 Hk2].
  assert (Hd1 : (length p1 / 2 = k1)%nat)
    by (rewrite Hk1, Nat.mul_comm; apply Nat.div_mul; lia).
  assert (Hd2 : (length p2 / 2 = k2)%nat)
    by (rewrite Hk2, Nat.mul_comm; apply Nat.div_mul; lia).
  rewrite Hd1, Hd2 in Hs.
  assert (Hk : k1 = k2).
  { apply (f_equal (@length _)) in Hs.
    now rewrite !length_map, !length_seq in Hs. }
  clear Hd1 Hd2. subst k2.
  assert (Hpair : forall i, (i < k1)%nat ->
            nth (2 * i) p1 "000"%byte = nth (2 * i) p2 "000"%byte
            /\ nth (2 * i + 1) p1 "000"%byte
               = nth (2 * i + 1) p2 "000"%byte).
  { intros i Hi. apply normalize_inj.
    apply (f_equal (fun l => l !! i)) in Hs.
    rewrite !list_lookup_fmap, !lookup_seq_lt in Hs by assumption.
    cbv beta in Hs. now inversion Hs. }
  apply (nth_ext _ _ "000"%byte "000"%byte); [lia|].
  intros j Hj.
  destruct (Nat.Even_or_Odd j) as [[i ->]|[i ->]].
  - apply (Hpair i). lia.
  - apply (Hpair i). lia.
Qed.

(** X5.  Whatever the buffer, every decoded sample is a whole number of
    32768ths between -32768/32768 and 32767/32768: -1 can occur, +1
    cannot. *)
Theorem samples_range (bytes : list byte) :
  Forall (fun f => exists v : Z,
            -32768 <= v <= 32767 /\ Float32.denotes f (v # 32768)%Q)
         (Wav.samples bytes).
Proof.
  apply List.Forall_forall. intros f Hin.
  unfold Wav.samples in Hin. apply in_map_iff in Hin as (i & <- & _).
  unfold Wav.sample, Wav.pcm16.
  eexists. split; [apply int16_le_bound | apply normalize_exact].
Qed.

End DecoderFacts.

(** ** Contexts: opening, using, closing *)

Section LifecycleFacts.

Context {mem : Type} {engine_impl : Whisper mem}.

Implicit Types (w : @world mem) (ctx : Z).

Lemma whisper_init_from_file_run (path : string)
    (p : whisper_context_params) w :
  let a := eng_init_from_file path p (engine_mem w) in
  let h := new_handle (live_ctx w) in
  whisper_init_from_file_with_params path p w
  = if a.1
    then Done h (World ({[h]} ∪ live_ctx w) (live_state w) a.2
                   (engine_log w ++ [CallInitFromFile path p h]))
    else Done 0 (World (live_ctx w) (live_state w) a.2
                   (engine_log w ++ [CallInitFromFile path p 0])).
Proof.
  intros a h. unfold whisper_init_from_file_with_params. subst a.
  now destruct (eng_init_from_file path p (engine_mem w)) as [[|] m].
Qed.

Lemma nativeInitContext_run (modelPath : string) (useGpu useFlashAttn : bool)
    w :
  nativeInitContext modelPath useGpu useFlashAttn w
  = whisper_init_from_file_with_params modelPath
      (ContextParams useGpu useFlashAttn) w.
Proof.
  unfold nativeInitContext, bind. cbn [use_gpu flash_attn].
  destruct (whisper_init_from_file_with_params _ _ w) as [|h w1];
    [reflexivity|].
  now destruct (h =? 0) eqn:E; [apply Z.eqb_eq in E; subst|].
Qed.

Lemma initContext_run (modelPathStr : string) w :
  initContext modelPathStr w
  = whisper_init_from_file_with_params modelPathStr
      eng_context_default_params w.
Proof.
  unfold initContext, bind.
  destruct (whisper_init_from_file_with_params _ _ w) as [|h w1];
    [reflexivity|].
  now destruct (h =? 0) eqn:E; [apply Z.eqb_eq in E; subst|].
Qed.

(** What opening does to the world, for any parameters. *)
Lemma open_spec (path : string) (p : whisper_context_params) w :
  exists h w',
    whisper_init_from_file_with_params path p w = Done h w'
    /\ engine_log w' = engine_log w ++ [CallInitFromFile path p h]
    /\ live_state w' = live_state w
    /\ (h = 0 <-> (eng_init_from_file path p (engine_mem w)).1 = false)
    /\ (h = 0 -> live_ctx w' = live_ctx w)
    /\ (h <> 0 -> (h ∉ live_ctx w) /\ live_ctx w' = {[h]} ∪ live_ctx w).
Proof.
  pose proof (whisper_init_from_file_run path p w) as Hrun.
  cbv zeta in Hrun. rewrite Hrun. clear Hrun.
  destruct (new_handle_fresh (live_ctx w)) as [Hfresh Hnz].
  destruct (eng_init_from_file path p (engine_mem w)).1.
  - do 2 eexists. split; [reflexivity|]. cbn.
    repeat split; try congruence; try discriminate; auto.
  - do 2 eexists. split; [reflexivity|]. cbn.
    repeat split; auto; congruence.
Qed.

(** X6.  Opening a context returns 0 exactly when the engine refuses
    the model, and otherwise a non-null handle that was not allocated
    before and is allocated afterwards; the engine is called once, with
    the model path and, in the structured binding, with the caller's
    [useGpu] and [useFlashAttn] (the JSON binding passes the engine's
    default context parameters).  No state is created. *)
Theorem open_returns_fresh_handle (path : string)
    (useGpu useFlashAttn : bool) w :
  (exists h w',
     nativeInitContext path useGpu useFlashAttn w = Done h w'
     /\ engine_log w'
        = engine_log w
          ++ [CallInitFromFile path (ContextParams useGpu useFlashAttn) h]
     /\ live_state w' = live_state w
     /\ (h = 0 <->
         (eng_init_from_file path (ContextParams useGpu useFlashAttn)
            (engine_mem w)).1 = false)
     /\ (h = 0 -> live_ctx w' = live_ctx w)
     /\ (h <> 0 -> (h ∉ live_ctx w) /\ live_ctx w' = {[h]} ∪ live_ctx w))
  /\ (exists h w',
        initContext path w = Done h w'
        /\ engine_log w'
           = engine_log w
             ++ [CallInitFromFile path eng_context_default_params h]
        /\ live_state w' = live_state w
        /\ (h = 0 <->
            (eng_init_from_file path eng_context_default_params
               (engine_mem w)).1 = false)
        /\ (h = 0 -> live_ctx w' = live_ctx w)
        /\ (h <> 0 -> (h ∉ live_ctx w) /\ live_ctx w' = {[h]} ∪ live_ctx w)).
Proof.
  split.
  - rewrite nativeInitContext_run. apply open_spec.
  - rewrite initContext_run. apply open_spec.
Qed.

(** Releasing what was just opened. *)
Lemma close_after_open (path : string) (p : whisper_context_params) w :
  exists h w1 w2,
    whisper_init_from_file_with_params path p w = Done h w1
    /\ freeContext h w1 = Done tt w2
    /\ nativeFreeContext h w1 = Done tt w2
    /\ live_ctx w2 = live_ctx w
    /\ live_state w2 = live_state w.
Proof.
  pose proof (whisper_init_from_file_run path p w) as Hrun.
  cbv zeta in Hrun. rewrite Hrun. clear Hrun.
  destruct (new_handle_fresh (live_ctx w)) as [Hfresh Hnz].
  apply Z.eqb_neq in Hnz.
  destruct (eng_init_from_file path p (engine_mem w)).1.
  - do 3 eexists. split; [reflexivity|].
    unfold freeContext, nativeFreeContext, whisper_free. rewrite Hnz.
    cbn [negb live_ctx].
    rewrite decide_True by (apply elem_of_union_l, elem_of_singleton_2;
                            reflexivity).
    split; [reflexivity|]. split; [reflexivity|].
    cbn. split; [apply release_new | reflexivity].
  - do 3 eexists. split; [reflexivity|].
    split; [reflexivity|]. split; [reflexivity|]. split; reflexivity.
Qed.

(** X7.  Opening a context and closing the handle that came back never
    crashes, whether or not the model could be loaded (a failed open
    gives 0, which close accepts), and leaves the sets of allocated
    contexts and states as they were; the two bindings' close routines
    do the same. *)
Theorem open_close_round_trip (path : string) (useGpu useFlashAttn : bool)
    w :
  (exists h w1 w2,
     nativeInitContext path useGpu useFlashAttn w = Done h w1
     /\ freeContext h w1 = Done tt w2
     /\ nativeFreeContext h w1 = Done tt w2
     /\ live_ctx w2 = live_ctx w
     /\ live_state w2 = live_state w)
  /\ (exists h w1 w2,
        initContext path w = Done h w1
        /\ freeContext h w1 = Done tt w2
        /\ nativeFreeContext h w1 = Done tt w2
        /\ live_ctx w2 = live_ctx w
        /\ live_state w2 = live_state w).
Proof.
  split.
  - rewrite nativeInitContext_run. apply close_after_open.
  - rewrite initContext_run. apply close_after_open.
Qed.

(** X8.  Whatever an open returned can be passed on at once: on that
    handle no operation crashes, also when the open failed and the
    handle is 0. *)
Theorem opened_handle_is_accepted (path : string)
    (useGpu useFlashAttn : bool) w (h : Z) w1 :
  nativeInitContext path useGpu useFlashAttn w = Done h w1 ->
  (forall audioData language translate maxTokens,
     exists r w2,
       nativeTranscribe h audioData language translate maxTokens w1
       = Done r w2)
  /\ (forall audioData nThreads,
        exists r w2,
          nativeDetectLanguageWithState h audioData nThreads w1 = Done r w2)
  /\ (forall samplesPerChunk language translate maxTokens useVad
        audioContext singleSegment noContext nThreads,
        exists r w2,
          nativeStartChunkedRealtimeTranscribeWithState h samplesPerChunk
            language translate maxTokens useVad audioContext singleSegment
            noContext nThreads w1 = Done r w2)
  /\ (forall audioData languageStr translate maxTokens suppressBlank
        suppressNst,
        exists r w2,
          fullTranscribe h audioData languageStr translate maxTokens
            suppressBlank suppressNst w1 = Done r w2).
Proof.
  intros Hopen. rewrite nativeInitContext_run in Hopen.
  destruct (open_spec path (ContextParams useGpu useFlashAttn) w)
    as (h' & w' & Hrun & _ & _ & _ & H0 & Hnz).
  rewrite Hrun in Hopen. inversion Hopen; subst h' w'. clear Hopen.
  destruct (Z.eq_dec h 0) as [->|Hh].
  { repeat split; intros; do 2 eexists; reflexivity. }
  destruct (Hnz Hh) as [_ Hlive].
  assert (Hin : h ∈ live_ctx w1)
    by (rewrite Hlive; apply elem_of_union_l, elem_of_singleton_2;
        reflexivity).
  split; [|split; [|split]].
  - intros audioData lang tr maxTokens.
    pose proof (nativeTranscribe_run h audioData lang tr maxTokens w1 Hh Hin)
      as E.
    cbv zeta in E. rewrite E. eauto.
  - intros audioData nThreads.
    pose proof (nativeDetectLanguageWithState_run h audioData nThreads w1
                  Hh Hin) as E.
    cbv zeta in E. rewrite E.
    destruct (eng_init_state _ _).1; [destruct (_ =? 0)|]; eauto.
  - intros samplesPerChunk lang tr maxTokens useVad audioContext
      singleSegment noContext nThreads.
    pose proof (nativeStartChunked_run h samplesPerChunk lang tr maxTokens
                  useVad audioContext singleSegment noContext nThreads w1
                  Hh Hin) as E.
    cbv zeta in E. rewrite E.
    destruct (eng_init_state _ _).1; eauto.
  - intros audioData languageStr tr maxTokens suppressBlank suppressNst.
    destruct (Z_lt_le_dec (Wav.len audioData) 44) as [Hs|Hl].
    + rewrite fullTranscribe_short by assumption. eauto.
    + pose proof (fullTranscribe_run h audioData languageStr tr maxTokens
                    suppressBlank suppressNst w1 Hh Hin Hl) as E.
      cbv zeta in E. rewrite E. eauto.
Qed.

End LifecycleFacts.

(** ** The operations on a context *)

Section OperationFacts.

Context {mem : Type} {engine_impl : Whisper mem}.

Implicit Types (w : @world mem) (ctx : Z).

(** X9.  A transcribe call neither allocates nor releases anything: when
    it returns, the allocated contexts and states are those from before
    (so the handle can be used again), and it has run the engine at most
    once, on the caller's samples.  It fails to return only on a handle
    that is neither null nor allocated. *)
Theorem transcribe_keeps_handles ctx w :
  (forall audioData lang tr maxTokens,
     match nativeTranscribe ctx audioData lang tr maxTokens w with
     | Crash => ctx <> 0 /\ ctx ∉ live_ctx w
     | Done r w' =>
         live_ctx w' = live_ctx w
         /\ live_state w' = live_state w
         /\ (engine_log w' = engine_log w
             \/ exists p status,
                  engine_log w'
                  = engine_log w ++ [CallFull ctx p audioData status])
     end)
  /\ (forall audioData languageStr tr maxTokens suppressBlank suppressNst,
        match
          fullTranscribe ctx audioData languageStr tr maxTokens
            suppressBlank suppressNst w
        with
        | Crash => ctx <> 0 /\ (ctx ∉ live_ctx w) /\ 44 <= Wav.len audioData
        | Done r w' =>
            live_ctx w' = live_ctx w
            /\ live_state w' = live_state w
            /\ (engine_log w' = engine_log w
                \/ exists p status,
                     engine_log w'
                     = engine_log w
                       ++ [CallFull ctx p (Wav.samples audioData) status])
        end).
Proof.
  split.
  - intros audioData lang tr maxTokens.
    destruct (Z.eq_dec ctx 0) as [->|Hctx]; [cbn; auto|].
    destruct (decide (ctx ∈ live_ctx w)) as [Hlive|Hdead].
    + pose proof (nativeTranscribe_run ctx audioData lang tr maxTokens w
                    Hctx Hlive) as E.
      cbv zeta in E. rewrite E. cbn. eauto 6.
    + destruct (dangling_crashes ctx w Hctx Hdead) as [Hc _].
      rewrite Hc. auto.
  - intros audioData languageStr tr maxTokens suppressBlank suppressNst.
    destruct (Z.eq_dec ctx 0) as [->|Hctx]; [cbn; auto|].
    destruct (Z_lt_le_dec (Wav.len audioData) 44) as [Hs|Hl].
    { rewrite fullTranscribe_short by assumption. auto. }
    destruct (decide (ctx ∈ live_ctx w)) as [Hlive|Hdead].
    + pose proof (fullTranscribe_run ctx audioData languageStr tr maxTokens
                    suppressBlank suppressNst w Hctx Hlive Hl) as E.
      cbv zeta in E. rewrite E. cbn. eauto 6.
    + destruct (dangling_crashes ctx w Hctx Hdead) as (_ & _ & _ & Hc & _).
      rewrite Hc by assumption. auto.
Qed.

(** X10.  The streaming start configures nothing that lasts: its result
    and its effect on the world do not depend on the chunk size, the
    language, the translate flag, the token cap, the voice-activity
    flag, the audio context, the segment and context flags or the
    thread count.  It answers [false] on the null handle and otherwise
    whether the engine could create a state. *)
Theorem streaming_start_ignores_configuration ctx w
    (samplesPerChunk samplesPerChunk' : Z) (lang lang' : option string)
    (tr tr' : bool) (maxTokens maxTokens' : Z) (useVad useVad' : bool)
    (audioContext audioContext' : Z)
    (singleSegment singleSegment' noContext noContext' : bool)
    (nThreads nThreads' : Z) :
  nativeStartChunkedRealtimeTranscribeWithState ctx samplesPerChunk lang tr
    maxTokens useVad audioContext singleSegment noContext nThreads w
  = nativeStartChunkedRealtimeTranscribeWithState ctx samplesPerChunk' lang'
      tr' maxTokens' useVad' audioContext' singleSegment' noContext'
      nThreads' w
  /\ result_of
       (nativeStartChunkedRealtimeTranscribeWithState ctx samplesPerChunk
          lang tr maxTokens useVad audioContext singleSegment noContext
          nThreads w)
     = if ctx =? 0 then Some false
       else if decide (ctx ∈ live_ctx w)
            then Some (eng_init_state ctx (engine_mem w)).1
            else None.
Proof.
  destruct (Z.eq_dec ctx 0) as [->|Hctx]; [split; reflexivity|].
  pose proof Hctx as Hneq. apply Z.eqb_neq in Hneq. rewrite Hneq.
  destruct (decide (ctx ∈ live_ctx w)) as [Hlive|Hdead].
  - pose proof (nativeStartChunked_run ctx samplesPerChunk lang tr maxTokens
                  useVad audioContext singleSegment noContext nThreads w
                  Hctx Hlive) as E1.
    pose proof (nativeStartChunked_run ctx samplesPerChunk' lang' tr'
                  maxTokens' useVad' audioContext' singleSegment' noContext'
                  nThreads' w Hctx Hlive) as E2.
    cbv zeta in E1, E2. rewrite E1, E2.
    split; [reflexivity|].
    now destruct (eng_init_state ctx (engine_mem w)).1.
  - destruct (dangling_crashes ctx w Hctx Hdead) as (_ & _ & Hc & _).
    rewrite !Hc. split; reflexivity.
Qed.

(** X11.  A detection that succeeds has made four engine calls in this
    order: create a state, convert the samples with thread count 0 (the
    caller's [nThreads] is not used there), detect with [nThreads], free
    the state.  The map it returns has exactly three keys: "language",
    the code of the detected id; "languageName", the full name of the id
    or, when the engine has none, the code again; and "confidence",
    always the same constant, a little under 0.9, whatever the audio. *)
Theorem detection_success_shape ctx audioData nThreads w (v : jvalue) w' :
  nativeDetectLanguageWithState ctx audioData nThreads w = Done (Some v) w' ->
  exists (st id : Z) (code : string) (m : gmap string jvalue),
    st <> 0 /\ 0 <= id /\ eng_lang_str id = Some code
    /\ engine_log w'
       = engine_log w
         ++ [CallInitState ctx st; CallPcmToMel ctx st audioData 0 0;
             CallLangAutoDetect ctx st nThreads id; CallStateFree st]
    /\ v = JMap m
    /\ m !! "language" = Some (JString code)
    /\ m !! "languageName"
       = Some (JString (default code (eng_lang_str_full id)))
    /\ m !! "confidence" = Some (JDouble confidence_0_9)
    /\ (forall k, is_Some (m !! k) ->
          k = "language" \/ k = "languageName" \/ k = "confidence")
    /\ Float32.denotes confidence_0_9 (15099494 # 16777216)%Q.
Proof.
  intros Hrun.
  destruct (Z.eq_dec ctx 0) as [->|Hctx]; [discriminate Hrun|].
  destruct (decide (ctx ∈ live_ctx w)) as [Hlive|Hdead].
  2:{ destruct (dangling_crashes ctx w Hctx Hdead) as (_ & Hc & _).
      rewrite Hc in Hrun. discriminate. }
  pose proof (nativeDetectLanguageWithState_run ctx audioData nThreads w
                Hctx Hlive) as E.
  cbv zeta in E. rewrite E in Hrun. clear E.
  destruct (new_handle_fresh (live_state w)) as [_ Hst].
  destruct (eng_init_state ctx (engine_mem w)).1; [|discriminate Hrun].
  destruct ((eng_pcm_to_mel_with_state _ _ _ _ _).1 =? 0) eqn:Hmel;
    [|discriminate Hrun].
  apply Z.eqb_eq in Hmel. rewrite Hmel in Hrun.
  set (c := eng_lang_auto_detect_with_state _ _ _ _) in Hrun.
  destruct (Z.ltb_spec c.1 0) as [|Hid]; [discriminate Hrun|].
  destruct (eng_lang_str c.1) as [code|] eqn:Hcode; [|discriminate Hrun].
  cbn [fmap option_fmap option_map] in Hrun.
  inversion Hrun; subst v w'. clear Hrun.
  exists (new_handle (live_state w)), c.1, code. eexists.
  split; [exact Hst|]. split; [exact Hid|]. split; [exact Hcode|].
  split; [reflexivity|]. split; [reflexivity|].
  split; [now rewrite !lookup_insert_ne, lookup_insert_eq by discriminate|].
  split; [now rewrite lookup_insert_eq|].
  split; [now rewrite lookup_insert_ne, lookup_insert_eq by discriminate|].
  split.
  - intros k [x Hk].
    destruct (decide (k = "languageName")) as [|N1]; [auto|].
    destruct (decide (k = "confidence")) as [|N2]; [auto|].
    destruct (decide (k = "language")) as [|N3]; [auto|].
    rewrite !lookup_insert_ne, lookup_empty in Hk by congruence.
    discriminate.
  - eexists. split; [reflexivity|]. reflexivity.
Qed.

(** X12.  A run that succeeds and leaves no segments (the engine
    reports a count of 0, or less) gives an empty result and not a
    failure: the structured binding returns a map with the empty string
    under "result" and an empty list under "segments", the JSON binding
    the document with an empty text and an empty array. *)
Theorem no_segments_is_empty_success ctx w :
  ctx <> 0 -> ctx ∈ live_ctx w ->
  (forall audioData lang tr maxTokens,
     let e := eng_full ctx (nativeTranscribe_params lang tr maxTokens)
                audioData (engine_mem w) in
     e.1 = 0 -> eng_full_n_segments ctx e.2 <= 0 ->
     result_of (nativeTranscribe ctx audioData lang tr maxTokens w)
     = Some (Some (JMap (<["segments" := JList []]>
                          (<["result" := JString EmptyString]> ∅)))))
  /\ (forall audioData languageStr tr maxTokens suppressBlank suppressNst,
        let e := eng_full ctx
                   (fullTranscribe_params languageStr tr maxTokens
                      suppressBlank suppressNst)
                   (Wav.samples audioData) (engine_mem w) in
        44 <= Wav.len audioData ->
        e.1 = 0 -> eng_full_n_segments ctx e.2 <= 0 ->
        result_of (fullTranscribe ctx audioData languageStr tr maxTokens
                     suppressBlank suppressNst w)
        = Some ("{" +:+ quoted "text" +:+ ": " +:+ quoted EmptyString +:+
                ", " +:+ quoted "segments" +:+ ": []}")).
Proof.
  intros Hctx Hlive. split.
  - intros audioData lang tr maxTokens e Hok Hn.
    pose proof (nativeTranscribe_run ctx audioData lang tr maxTokens w
                  Hctx Hlive) as E.
    cbv zeta in E. rewrite E. fold e. rewrite Hok. cbn [Z.eqb result_of].
    unfold engine_segments.
    replace (Z.to_nat (eng_full_n_segments ctx e.2)) with 0%nat by lia.
    reflexivity.
  - intros audioData languageStr tr maxTokens suppressBlank suppressNst e
      Hlen Hok Hn.
    pose proof (fullTranscribe_run ctx audioData languageStr tr maxTokens
                  suppressBlank suppressNst w Hctx Hlive Hlen) as E.
    cbv zeta in E. rewrite E. fold e. rewrite Hok. cbn [Z.eqb result_of].
    unfold engine_segments.
    replace (Z.to_nat (eng_full_n_segments ctx e.2)) with 0%nat by lia.
    reflexivity.
Qed.

(** X13.  The call sites do not set the same parameters.  The JSON
    binding can only switch translation on (a [false] leaves the default
    in place), keeps the default thread count, and sets the two
    suppression flags from its arguments; the structured binding sets
    translation to its argument, fixes four threads, and leaves the
    suppression flags at their defaults; the streaming start takes the
    thread count, the audio context and the segment and context flags
    from its arguments.  All three switch off progress and realtime
    printing. *)
Theorem call_sites_set_different_parameters (languageStr : string)
    (lang : option string) (tr suppressBlank suppressNst : bool)
    (maxTokens audioContext nThreads : Z) (singleSegment noContext : bool) :
  let d := eng_full_default_params WHISPER_SAMPLING_GREEDY in
  let j := fullTranscribe_params languageStr tr maxTokens suppressBlank
             suppressNst in
  let s := nativeTranscribe_params lang tr maxTokens in
  let c := startChunked_params lang tr maxTokens audioContext singleSegment
             noContext nThreads in
  (translate j = tr || translate d /\ translate s = tr /\ translate c = tr)
  /\ (n_threads j = n_threads d /\ n_threads s = 4 /\ n_threads c = nThreads)
  /\ (suppress_blank j = suppressBlank /\ suppress_nst j = suppressNst
      /\ suppress_blank s = suppress_blank d
      /\ suppress_nst s = suppress_nst d
      /\ suppress_blank c = suppress_blank d
      /\ suppress_nst c = suppress_nst d)
  /\ (single_segment j = single_segment d /\ single_segment s = false
      /\ single_segment c = singleSegment)
  /\ (no_context j = no_context d /\ no_context s = no_context d
      /\ no_context c = noContext)
  /\ (audio_ctx j = audio_ctx d /\ audio_ctx s = audio_ctx d
      /\ audio_ctx c = audioContext)
  /\ (token_timestamps j = token_timestamps d /\ token_timestamps s = true
      /\ token_timestamps c = true)
  /\ (print_progress j = false /\ print_progress s = false
      /\ print_progress c = false /\ print_realtime j = false
      /\ print_realtime s = false /\ print_realtime c = false).
Proof.
  intros d j s c. subst j s c.
  unfold fullTranscribe_params, nativeTranscribe_params, startChunked_params.
  fold d.
  destruct (0 <? maxTokens), tr, (negb (String.eqb languageStr "auto")),
    lang; cbn; repeat split; reflexivity.
Qed.

(** X14.  How the host reads a successful structured result: the map has
    exactly the keys "result" and "segments"; "segments" is a list with
    one entry per engine segment, and entry [i] is a map with exactly
    the keys "text", "t0" and "t1", holding the text of segment [i] as a
    string and its two times as longs. *)
Theorem structured_result_lookup ctx audioData lang tr maxTokens w
    (v : jvalue) w' :
  nativeTranscribe ctx audioData lang tr maxTokens w = Done (Some v) w' ->
  exists (m : gmap string jvalue) (l : list jvalue) (full : string),
    v = JMap m
    /\ m !! "result" = Some (JString full)
    /\ m !! "segments" = Some (JList l)
    /\ (forall k, is_Some (m !! k) -> k = "result" \/ k = "segments")
    /\ length l = Z.to_nat (eng_full_n_segments ctx (engine_mem w'))
    /\ forall i : nat,
         (i < length l)%nat ->
         exists sm : gmap string jvalue,
           l !! i = Some (JMap sm)
           /\ sm !! "text"
              = Some (JString
                        (eng_full_get_segment_text ctx (Z.of_nat i)
                           (engine_mem w')))
           /\ sm !! "t0"
              = Some (JLong
                        (eng_full_get_segment_t0 ctx (Z.of_nat i)
                           (engine_mem w')))
           /\ sm !! "t1"
              = Some (JLong
                        (eng_full_get_segment_t1 ctx (Z.of_nat i)
                           (engine_mem w')))
           /\ (forall k, is_Some (sm !! k) ->
                 k = "text" \/ k = "t0" \/ k = "t1").
Proof.
  intros Hrun.
  destruct (Z.eq_dec ctx 0) as [->|Hctx]; [discriminate Hrun|].
  destruct (decide (ctx ∈ live_ctx w)) as [Hlive|Hdead].
  2:{ destruct (dangling_crashes ctx w Hctx Hdead) as [Hc _].
      rewrite Hc in Hrun. discriminate. }
  pose proof (nativeTranscribe_run ctx audioData lang tr maxTokens w
                Hctx Hlive) as E.
  cbv zeta in E. rewrite E in Hrun. clear E.
  destruct (_ =? 0); [|discriminate Hrun].
  inversion Hrun; subst v w'. clear Hrun. cbn [engine_mem].
  set (e := eng_full _ _ _ _).
  do 3 eexists. split; [reflexivity|].
  split; [now rewrite lookup_insert_ne, lookup_insert_eq by discriminate|].
  split; [now rewrite lookup_insert_eq|].
  split.
  { intros k [x Hk].
    destruct (decide (k = "segments")) as [|N1]; [auto|].
    destruct (decide (k = "result")) as [|N2]; [auto|].
    rewrite !lookup_insert_ne, lookup_empty in Hk by congruence.
    discriminate. }
  unfold engine_segments. rewrite !length_map, length_seq.
  split; [reflexivity|].
  intros i Hi. eexists.
  split.
  { rewrite !list_lookup_fmap, lookup_seq_lt by assumption. reflexivity. }
  unfold segment_map, segment_at. cbn [fst snd].
  split; [now rewrite !lookup_insert_ne, lookup_insert_eq by discriminate|].
  split; [now rewrite lookup_insert_ne, lookup_insert_eq by discriminate|].
  split; [now rewrite lookup_insert_eq|].
  intros k [x Hk].
  destruct (decide (k = "t1")) as [|N1]; [auto|].
  destruct (decide (k = "t0")) as [|N2]; [auto|].
  destruct (decide (k = "text")) as [|N3]; [auto|].
  rewrite !lookup_insert_ne, lookup_empty in Hk by congruence.
  discriminate.
Qed.

(** X15.  The JSON binding returns one of four kinds of document, and
    the kinds cannot be confused: the empty object (null handle), the
    "Invalid WAV" error (short buffer), the "Transformation failed"
    error (engine status not 0), or a result document; no result
    document equals one of the other three, and those differ from each
    other. *)
Theorem json_outcomes_are_distinct ctx audioData languageStr tr maxTokens
    suppressBlank suppressNst w :
  match
    fullTranscribe ctx audioData languageStr tr maxTokens suppressBlank
      suppressNst w
  with
  | Crash => True
  | Done r w' =>
      (r = "{}" /\ ctx = 0)
      \/ (r = err_json "Invalid WAV" /\ Wav.len audioData < 44)
      \/ (r = err_json "Transformation failed"
          /\ exists p status,
               status <> 0
               /\ engine_log w'
                  = engine_log w
                    ++ [CallFull ctx p (Wav.samples audioData) status])
      \/ (r = result_json (engine_segments ctx (engine_mem w'))
          /\ exists p,
               engine_log w'
               = engine_log w ++ [CallFull ctx p (Wav.samples audioData) 0])
  end
  /\ (forall segs,
        result_json segs <> "{}"
        /\ result_json segs <> err_json "Invalid WAV"
        /\ result_json segs <> err_json "Transformation failed")
  /\ "{}" <> err_json "Invalid WAV"
  /\ "{}" <> err_json "Transformation failed"
  /\ err_json "Invalid WAV" <> err_json "Transformation failed".
Proof.
  split.
  - destruct (Z.eq_dec ctx 0) as [->|Hctx]; [cbn; auto|].
    destruct (Z_lt_le_dec (Wav.len audioData) 44) as [Hs|Hl].
    { rewrite fullTranscribe_short by assumption. auto. }
    destruct (decide (ctx ∈ live_ctx w)) as [Hlive|Hdead].
    + pose proof (fullTranscribe_run ctx audioData languageStr tr maxTokens
                    suppressBlank suppressNst w Hctx Hlive Hl) as E.
      cbv zeta in E. rewrite E. clear E. cbn [engine_mem engine_log].
      destruct (_ =? 0) eqn:Hst.
      * apply Z.eqb_eq in Hst. rewrite Hst. right. right. right. eauto.
      * apply Z.eqb_neq in Hst. right. right. left. eauto.
    + destruct (dangling_crashes ctx w Hctx Hdead) as (_ & _ & _ & Hc & _).
      now rewrite Hc.
  - split; [|repeat split; discriminate].
    intros segs. split; [|split; apply result_json_not_error].
    unfold result_json, quoted, dq. rewrite !append_cons. discriminate.
Qed.

End OperationFacts.

(** ** The further properties on the small engine *)

Lemma header_never_inspected_witness :
  length (repeat "000"%byte 44) = 44%nat
  /\ length (repeat "255"%byte 44) = 44%nat
  /\ Wav.samples (repeat "000"%byte 44 ++ ["001"; "128"]%byte)
     = Wav.samples (repeat "255"%byte 44 ++ ["001"; "128"]%byte)
  /\ fullTranscribe 1 (repeat "000"%byte 44 ++ ["001"; "128"]%byte) "en"
       false 0 false false (toy_world 0 true 0 toy_three)
     = fullTranscribe 1 (repeat "255"%byte 44 ++ ["001"; "128"]%byte) "en"
         false 0 false false (toy_world 0 true 0 toy_three).
Proof.
  assert (H1 : length (repeat "000"%byte 44) = 44%nat) by reflexivity.
  assert (H2 : length (repeat "255"%byte 44) = 44%nat) by reflexivity.
  destruct (@header_never_inspected toy_mem toy_engine _ _
              ["001"; "128"]%byte H1 H2) as [Hs Hf].
  split; [exact H1|]. split; [exact H2|]. split; [exact Hs|].
  exact (Hf 1 "en" false 0 false false (toy_world 0 true 0 toy_three)).
Defined.

Lemma trailing_byte_ignored_witness :
  44 <= Wav.len (wav_of ["001"; "128"]%byte)
  /\ Z.even (Wav.len (wav_of ["001"; "128"]%byte) - 44) = true
  /\ Wav.samples (wav_of ["001"; "128"]%byte ++ ["007"%byte])
     = Wav.samples (wav_of ["001"; "128"]%byte).
Proof.
  assert (H1 : 44 <= Wav.len (wav_of ["001"; "128"]%byte))
    by (vm_compute; discriminate).
  assert (H2 : Z.even (Wav.len (wav_of ["001"; "128"]%byte) - 44) = true)
    by reflexivity.
  split; [exact H1|]. split; [exact H2|].
  exact (proj1 (@trailing_byte_ignored toy_mem toy_engine _ "007"%byte
                  H1 H2)).
Defined.

Lemma samples_append_pair_witness :
  44 <= Wav.len (wav_of ["001"; "128"]%byte)
  /\ Z.even (Wav.len (wav_of ["001"; "128"]%byte) - 44) = true
  /\ Wav.samples (wav_of ["001"; "128"]%byte ++ ["255"; "127"]%byte)
     = Wav.samples (wav_of ["001"; "128"]%byte)
       ++ [Wav.normalize (Wav.int16_le "255"%byte "127"%byte)].
Proof.
  assert (H1 : 44 <= Wav.len (wav_of ["001"; "128"]%byte))
    by (vm_compute; discriminate).
  assert (H2 : Z.even (Wav.len (wav_of ["001"; "128"]%byte) - 44) = true)
    by reflexivity.
  split; [exact H1|]. split; [exact H2|].
  exact (samples_append_pair _ "255"%byte "127"%byte H1 H2).
Defined.

Lemma samples_injective_witness :
  length (repeat "000"%byte 44) = 44%nat
  /\ length (repeat "255"%byte 44) = 44%nat
  /\ Nat.even (length ["001"; "128"]%byte) = true
  /\ Wav.samples (repeat "000"%byte 44 ++ ["001"; "128"]%byte)
     = Wav.samples (repeat "255"%byte 44 ++ ["001"; "128"]%byte)
  /\ ["001"; "128"]%byte = ["001"; "128"]%byte.
Proof.
  assert (H1 : length (repeat "000"%byte 44) = 44%nat) by reflexivity.
  assert (H2 : length (repeat "255"%byte 44) = 44%nat) by reflexivity.
  assert (H3 : Nat.even (length ["001"; "128"]%byte) = true) by reflexivity.
  assert (H4 : Wav.samples (repeat "000"%byte 44 ++ ["001"; "128"]%byte)
               = Wav.samples (repeat "255"%byte 44 ++ ["001"; "128"]%byte))
    by (vm_compute; reflexivity).
  split; [exact H1|]. split; [exact H2|]. split; [exact H3|].
  split; [exact H4|].
  exact (samples_injective _ _ _ _ H1 H2 H3 H3 H4).
Defined.

Lemma opened_handle_is_accepted_witness :
  exists h w1,
    nativeInitContext "model.bin" true false (toy_world 0 true 0 toy_three)
    = Done h w1
    /\ exists r w2, nativeTranscribe h [] None false 0 w1 = Done r w2.
Proof.
  destruct (nativeInitContext "model.bin" true false
              (toy_world 0 true 0 toy_three)) as [|h w1] eqn:E.
  - vm_compute in E. discriminate E.
  - exists h, w1. split; [reflexivity|].
    exact (proj1 (opened_handle_is_accepted _ _ _ _ _ _ E) [] None false 0).
Defined.

Lemma detection_success_shape_witness :
  exists v w',
    nativeDetectLanguageWithState 1 [] 4 (toy_world 0 true 2 [])
    = Done (Some v) w'
    /\ exists (st id : Z) (code : string) (m : gmap string jvalue),
         st <> 0 /\ 0 <= id /\ eng_lang_str id = Some code
         /\ v = JMap m
         /\ m !! "language" = Some (JString code)
         /\ m !! "confidence" = Some (JDouble confidence_0_9).
Proof.
  destruct (nativeDetectLanguageWithState 1 [] 4 (toy_world 0 true 2 []))
    as [|[v|] w'] eqn:E.
  - vm_compute in E. discriminate E.
  - exists v, w'. split; [reflexivity|].
    destruct (detection_success_shape _ _ _ _ _ _ E)
      as (st & id & code & m & H1 & H2 & H3 & _ & H5 & H6 & _ & H8 & _).
    exists st, id, code, m. auto 10.
  - vm_compute in E. discriminate E.
Defined.

Lemma no_segments_is_empty_success_witness :
  1 <> 0
  /\ 1 ∈ live_ctx (toy_world 0 true 0 [])
  /\ result_of (nativeTranscribe 1 [] None false 0 (toy_world 0 true 0 []))
     = Some (Some (JMap (<["segments" := JList []]>
                          (<["result" := JString EmptyString]> ∅))))
  /\ result_of (fullTranscribe 1 (wav_of []) "en" false 0 false false
                  (toy_world 0 true 0 []))
     = Some ("{" +:+ quoted "text" +:+ ": " +:+ quoted EmptyString +:+
             ", " +:+ quoted "segments" +:+ ": []}").
Proof.
  assert (H0 : 1 <> 0) by lia.
  pose proof (toy_handle_live 0 true 0 []) as H1.
  destruct (@no_segments_is_empty_success toy_mem toy_engine 1 _ H0 H1)
    as [Hm Hj].
  split; [exact H0|]. split; [exact H1|]. split.
  - apply (Hm [] None false 0); [reflexivity | vm_compute; discriminate].
  - apply (Hj (wav_of []) "en" false 0 false false);
      [vm_compute; discriminate | reflexivity | vm_compute; discriminate].
Defined.

Lemma structured_result_lookup_witness :
  exists v w',
    nativeTranscribe 1 [] None false 0 (toy_world 0 true 0 toy_three)
    = Done (Some v) w'
    /\ exists (m : gmap string jvalue) (l : list jvalue) (full : string),
         v = JMap m
         /\ m !! "result" = Some (JString full)
         /\ m !! "segments" = Some (JList l)
         /\ length l = Z.to_nat (eng_full_n_segments 1 (engine_mem w')).
Proof.
  destruct (nativeTranscribe 1 [] None false 0 (toy_world 0 true 0 toy_three))
    as [|[v|] w'] eqn:E.
  - vm_compute in E. discriminate E.
  - exists v, w'. split; [reflexivity|].
    destruct (structured_result_lookup _ _ _ _ _ _ _ _ E)
      as (m & l & full & H1 & H2 & H3 & _ & H5 & _).
    exists m, l, full. auto.
  - vm_compute in E. discriminate E.
Defined.
